(** * Configuration lifecycle and wire-format decorator of syncthing

    A shallow embedding of the two Go sources

    - [cmd/syncthing/usage.go] (its second half is package [config]:
      default injection, the migration chain, [prepare], [Save], [Load],
      [New] and [ChangeRequiresRestart]);
    - [internal/protocol/wireformat.go] (the decorator that normalises
      file names before they reach the underlying connection).

    Conventions of the embedding:

    - a Go [int] is a [Z] (the counters and versions handled here stay far
      from the 64-bit bounds); a Go [string] is a [string];
    - a slice is a [list]; a nil slice and an empty slice are the same
      list, which is how [len], [range] and [append] see them.  The one
      field for which the source distinguishes "absent" from "empty"
      ([ListenAddress], through [fillNilSlices]) is an [option (list _)];
    - a map used for membership only ([map[DeviceID]bool] with every
      stored value [true]) is a [gset]; other maps are [gmap]s;
    - a pointer into a slice ([&cfg.Folders[i]]) is the index [i], and the
      write through the pointer is an update of the list at that index;
    - results of the operating system and of external libraries (host
      name, bcrypt, XML codec, file operations, Unicode normalisation)
      are parameters of the functions that call them. *)

From Stdlib Require Import ZArith NArith String Ascii DecimalString.
From stdpp Require Import gmap strings list fin_maps sorting.

Local Open Scope string_scope.
Local Open Scope list_scope.
Local Open Scope Z_scope.

(** Outcome of a call that may panic. *)
Inductive Outcome (A : Type) : Type :=
| Returned (a : A)
| Panicked (msg : string).
Arguments Returned {A} a.
Arguments Panicked {A} msg.

(** Go's [error] values, as far as the modelled code produces them. *)
Inductive error : Type :=
| ErrSyntax (fn num : string)
| ErrRange (fn num : string)
| ErrIO (op path : string)
| ErrXML (msg : string).

#[global] Instance error_eq_dec : EqDecision error.
Proof. solve_decision. Defined.

(** [sort.Sort] on a slice through its [Less]/[Swap]/[Len] interface.  For
    the short slices a configuration holds, Go sorts by straight insertion:
    each element in turn moves left while it is [less] than its left
    neighbour.  Longer inputs go through an unstable quicksort, so the
    relative order of elements with equal keys is not fixed by the
    language; the properties proved below only use that the result is a
    rearrangement of the input. *)
Section Sort.
Context {A : Type} (less : A → A → bool).

Fixpoint insertLeft (x : A) (sorted : list A) : list A :=
  match sorted with
  | [] => [x]
  | y :: rest => if less x y then x :: y :: rest else y :: insertLeft x rest
  end.

Definition sort_Sort (data : list A) : list A :=
  fold_left (fun acc x => insertLeft x acc) data [].

End Sort.

(** [fmt.Sprintf("%s~%d", s, n)]. *)
Definition Sprintf_s_tilde_d (s : string) (n : Z) : string :=
  s +:+ "~" +:+ NilZero.string_of_int (Z.to_int n).

(** * Package protocol: device identities *)
Module protocol.

(** Modelled from the spec: [protocol.DeviceID] and its methods [Compare]
    and [Equals] are declared in a file of package [protocol] that is not
    among the sources.  The spec describes a fixed-length binary identity,
    comparable and totally ordered, with equality and ordering given by
    the same primitive.  The 32 bytes are read here as one big-endian
    number, on which byte-wise lexicographic comparison is numeric
    comparison. *)
Definition DeviceID : Type := N.

Definition Compare (a b : DeviceID) : Z :=
  match N.compare a b with
  | Lt => -1
  | Eq => 0
  | Gt => 1
  end.

Definition Equals (a b : DeviceID) : bool := Compare a b =? 0.

(** ** The wire-format decorator *)

Section WireFormat.

(** The fields of [FileInfo] other than [Name]; the struct is declared in a
    file of the package that is not among the sources. *)
Context {Rest : Type} (zeroRest : Rest).
(** [norm.NFC.String] of the Unicode normalisation library. *)
Variable NFC : string → string.
(** [filepath.Separator] of the platform the program runs on. *)
Variable Separator : ascii.
(** State of the underlying connection. *)
Context {Conn : Type}.

Record FileInfo : Type := {
  Name : string;
  rest : Rest
}.

Definition set_Name (v : string) (f : FileInfo) : FileInfo :=
  {| Name := v; rest := rest f |}.

(** [filepath.ToSlash]: every separator character becomes a slash; nothing
    to do where the separator is the slash. *)
Fixpoint replaceSeparator (path : string) : string :=
  match path with
  | EmptyString => EmptyString
  | String c path' =>
      String (if bool_decide (c = Separator) then "/"%char else c)
        (replaceSeparator path')
  end.

Definition ToSlash (path : string) : string :=
  if bool_decide (Separator = "/"%char) then path else replaceSeparator path.

(** Backing arrays of [[]FileInfo] slices.  A slice is the address of its
    array; the decorator only handles slices that span their array. *)
Record World : Type := {
  heap : gmap nat (list FileInfo);
  conn : Conn
}.

Definition set_heap (h : gmap nat (list FileInfo)) (w : World) : World :=
  {| heap := h; conn := conn w |}.

(** The methods of the underlying [Connection] that receive file names. *)
Record Connection : Type := {
  next_Index : string → nat → World → option error * World;
  next_IndexUpdate : string → nat → World → option error * World;
  next_Request : string → string → Z → Z → World → (list Z * option error) * World
}.

Variable next : Connection.

Definition len (w : World) (s : nat) : nat := length (default [] (heap w !! s)).

(** [make([]FileInfo, n)]: a new array of [n] zero values. *)
Definition make (n : nat) (w : World) : nat * World :=
  let s := fresh (dom (heap w)) in
  (s, set_heap (<[s := replicate n {| Name := ""; rest := zeroRest |}]> (heap w)) w).

(** [copy(dst, src)]. *)
Definition copy (dst src : nat) (w : World) : World :=
  let from := default [] (heap w !! src) in
  set_heap
    (alter (λ to, let n := Nat.min (length to) (length from) in
              (take n from ++ drop n to)%list)
       dst (heap w)) w.

(** [s[i].Name = NFC(ToSlash(s[i].Name))]. *)
Definition normalizeName (s i : nat) (w : World) : World :=
  set_heap
    (alter (alter (λ f, set_Name (NFC (ToSlash (Name f))) f) i) s (heap w)) w.

(** The body that [Index] and [IndexUpdate] share up to the forwarded call. *)
Definition wireCopy (fs : nat) (w : World) : nat * World :=
  let '(myFs, w) := make (len w fs) w in
  let w := copy myFs fs w in
  let w := fold_left (λ w i, normalizeName myFs i w) (seq 0 (len w fs)) w in
  (myFs, w).

Definition Index (folder : string) (fs : nat) (w : World) : option error * World :=
  let '(myFs, w) := wireCopy fs w in
  next_Index next folder myFs w.

Definition IndexUpdate (folder : string) (fs : nat) (w : World) : option error * World :=
  let '(myFs, w) := wireCopy fs w in
  next_IndexUpdate next folder myFs w.

Definition Request (folder name : string) (offset size : Z) (w : World)
    : (list Z * option error) * World :=
  let name := NFC (ToSlash name) in
  next_Request next folder name offset size w.

(** *** Properties *)

Lemma alter_each_index {A} (g : A → A) (pre post : list A) :
  fold_left (λ a i, alter g i a) (seq (length pre) (length post)) ((g <$> pre) ++ post)
  = g <$> (pre ++ post).
Proof.
  revert pre. induction post as [|x post IH]; intros pre; simpl.
  - by rewrite !app_nil_r.
  - specialize (IH (pre ++ [x])).
    rewrite length_app, Nat.add_1_r, fmap_app, <- !app_assoc in IH. simpl in IH.
    rewrite <- IH. f_equal.
    assert (length pre = length (g <$> pre) + 0)%nat as Hlen
      by (rewrite length_fmap; lia).
    rewrite Hlen at 1.
    by rewrite (alter_app_r g (g <$> pre) (x :: post) 0).
Qed.

Lemma normalizeName_fold (s : nat) (idxs : list nat) (w : World) :
  fold_left (λ w i, normalizeName s i w) idxs w
  = set_heap
      (alter (λ a, fold_left
                     (λ a i, alter (λ f, set_Name (NFC (ToSlash (Name f))) f) i a) idxs a)
         s (heap w)) w.
Proof.
  revert w. induction idxs as [|i idxs IH]; intros w; simpl.
  - destruct w as [h c]. unfold set_heap. simpl. f_equal.
    apply map_eq. intros k. rewrite lookup_alter. case_decide; subst; [|done].
    by destruct (h !! k).
  - rewrite IH. unfold normalizeName, set_heap. simpl. f_equal.
    by rewrite alter_alter_eq.
Qed.

(** What the shared body does: it allocates an array that is not the
    caller's, fills it with the caller's elements with normalised names, and
    changes nothing else. *)
Lemma wireCopy_spec (fs : nat) (w : World) (arr : list FileInfo) :
  heap w !! fs = Some arr →
  ∃ myFs,
    (myFs ∉ dom (heap w))
    ∧ (wireCopy fs w
       = (myFs,
          set_heap
            (<[myFs := (λ f, set_Name (NFC (ToSlash (Name f))) f) <$> arr]> (heap w)) w)).
Proof.
  intros Hfs. unfold wireCopy, make, len. rewrite Hfs. simpl.
  set (myFs := fresh (dom (heap w))).
  assert (myFs ∉ dom (heap w)) as Hfresh by apply is_fresh.
  assert (myFs ≠ fs) as Hne.
  { intros ->. apply Hfresh. apply elem_of_dom. eauto. }
  exists myFs. split; [done|]. f_equal.
  unfold copy. cbn [heap set_heap conn].
  rewrite lookup_insert_ne by done. rewrite Hfs. simpl.
  rewrite normalizeName_fold. unfold set_heap. cbn [heap conn]. f_equal.
  rewrite alter_alter_eq, alter_insert_eq. f_equal. simpl.
  rewrite length_replicate, Nat.min_id, firstn_all, drop_replicate, Nat.sub_diag.
  simpl. rewrite app_nil_r.
  rewrite lookup_alter_ne, lookup_insert_ne, Hfs by done. simpl.
  apply (alter_each_index _ [] arr).
Qed.

(** Every name that [Index], [IndexUpdate] and [Request] hand to the
    underlying connection is [NFC (ToSlash name)] of the name they received:
    the slice the connection gets holds the caller's elements, in order,
    with only [Name] rewritten. *)
Theorem wire_names_are_normalised (folder : string) (fs : nat) (w : World)
    (arr : list FileInfo) :
  heap w !! fs = Some arr →
  (∃ myFs w',
     heap w' !! myFs
       = Some ((λ f, {| Name := NFC (ToSlash (Name f)); rest := rest f |}) <$> arr)
     ∧ Index folder fs w = next_Index next folder myFs w'
     ∧ IndexUpdate folder fs w = next_IndexUpdate next folder myFs w')
  ∧ ∀ name offset size,
      Request folder name offset size w
      = next_Request next folder (NFC (ToSlash name)) offset size w.
Proof.
  intros Hfs. split; [|done].
  destruct (wireCopy_spec fs w arr Hfs) as (myFs & Hfresh & Hcopy).
  exists myFs,
    (set_heap (<[myFs := (λ f, set_Name (NFC (ToSlash (Name f))) f) <$> arr]> (heap w)) w).
  unfold Index, IndexUpdate. rewrite Hcopy.
  split_and!; [|done|done]. cbn [heap set_heap]. by rewrite lookup_insert_eq.
Qed.


End WireFormat.

(** A connection that only records what it is asked to send. *)
Definition recorder : @Connection unit (list (string * list (@FileInfo unit))) :=
  {| next_Index := λ folder fs w,
       (None, {| heap := heap w;
                 conn := conn w ++ [(folder, default [] (heap w !! fs))] |});
     next_IndexUpdate := λ folder fs w,
       (None, {| heap := heap w;
                 conn := conn w ++ [(folder, default [] (heap w !! fs))] |});
     next_Request := λ folder name offset size w,
       (([], None), {| heap := heap w; conn := conn w ++ [(folder, [])] |}) |}.

Definition sample_world : @World unit (list (string * list (@FileInfo unit))) :=
  {| heap := {[ 0%nat := [{| Name := "docs\a.txt"; rest := () |};
                          {| Name := "b.txt"; rest := () |}] ]};
     conn := [] |}.

Lemma wire_names_are_normalised_witness :
  (∃ myFs w',
     heap w' !! myFs
       = Some [{| Name := "docs/a.txt"; rest := () |}; {| Name := "b.txt"; rest := () |}]
     ∧ Index () (λ s, s) "\"%char recorder "photos" 0 sample_world
       = next_Index recorder "photos" myFs w'
     ∧ IndexUpdate () (λ s, s) "\"%char recorder "photos" 0 sample_world
       = next_IndexUpdate recorder "photos" myFs w')
  ∧ ∀ name offset size,
      Request (λ s, s) "\"%char recorder "photos" name offset size sample_world
      = next_Request recorder "photos" (ToSlash "\"%char name) offset size sample_world.
Proof.
  apply (wire_names_are_normalised () (λ s, s) "\"%char recorder "photos" 0 sample_world
           [{| Name := "docs\a.txt"; rest := () |}; {| Name := "b.txt"; rest := () |}]).
  reflexivity.
Defined.


End protocol.

(** * Package config *)
Module config.

Import protocol.

(** ** Data model *)

Record FolderDeviceConfiguration : Type := {
  fd_DeviceID : DeviceID;
  Deprecated_Name : string;
  Deprecated_Addresses : list string
}.

Record VersioningConfiguration : Type := {
  Type_ : string;
  Params : gmap string string
}.

Record FolderConfiguration : Type := {
  ID : string;
  Path : string;
  f_Devices : list FolderDeviceConfiguration;
  ReadOnly : bool;
  RescanIntervalS : Z;
  IgnorePerms : bool;
  Invalid : string;
  Versioning : VersioningConfiguration;
  deviceIDs : list DeviceID;
  Deprecated_Directory : string;
  f_Deprecated_Nodes : list FolderDeviceConfiguration
}.

Record DeviceConfiguration : Type := {
  d_DeviceID : DeviceID;
  Name : string;
  Addresses : list string;
  Compression : bool;
  CertName : string;
  Introducer : bool
}.

Record OptionsConfiguration : Type := {
  ListenAddress : option (list string);
  GlobalAnnServer : string;
  GlobalAnnEnabled : bool;
  LocalAnnEnabled : bool;
  LocalAnnPort : Z;
  LocalAnnMCAddr : string;
  MaxSendKbps : Z;
  MaxRecvKbps : Z;
  ReconnectIntervalS : Z;
  StartBrowser : bool;
  UPnPEnabled : bool;
  UPnPLease : Z;
  UPnPRenewal : Z;
  URAccepted : Z;
  RestartOnWakeup : bool;
  AutoUpgradeIntervalH : Z;
  Deprecated_RescanIntervalS : Z;
  Deprecated_UREnabled : bool;
  Deprecated_URDeclined : bool;
  Deprecated_ReadOnly : bool;
  Deprecated_GUIEnabled : bool;
  Deprecated_GUIAddress : string
}.

Record GUIConfiguration : Type := {
  Enabled : bool;
  Address : string;
  User : string;
  Password : string;
  UseTLS : bool;
  APIKey : string
}.

Record Configuration : Type := {
  Location : string;
  Version : Z;
  Folders : list FolderConfiguration;
  Devices : list DeviceConfiguration;
  GUI : GUIConfiguration;
  Options : OptionsConfiguration;
  XMLName : string * string;
  Deprecated_Repositories : list FolderConfiguration;
  Deprecated_Nodes : list DeviceConfiguration
}.

#[global] Instance FolderDeviceConfiguration_eq_dec : EqDecision FolderDeviceConfiguration.
Proof. solve_decision. Defined.
#[global] Instance VersioningConfiguration_eq_dec : EqDecision VersioningConfiguration.
Proof. solve_decision. Defined.
#[global] Instance FolderConfiguration_eq_dec : EqDecision FolderConfiguration.
Proof. solve_decision. Defined.
#[global] Instance DeviceConfiguration_eq_dec : EqDecision DeviceConfiguration.
Proof. solve_decision. Defined.
#[global] Instance OptionsConfiguration_eq_dec : EqDecision OptionsConfiguration.
Proof. solve_decision. Defined.
#[global] Instance GUIConfiguration_eq_dec : EqDecision GUIConfiguration.
Proof. solve_decision. Defined.

(** ** Field updates

    A Go assignment [x.F = v] is the record [x] with field [F] replaced. *)

Definition set_ID (v : string) (f : FolderConfiguration) : FolderConfiguration :=
  {| ID := v; Path := Path f; f_Devices := f_Devices f; ReadOnly := ReadOnly f;
     RescanIntervalS := RescanIntervalS f; IgnorePerms := IgnorePerms f;
     Invalid := Invalid f; Versioning := Versioning f; deviceIDs := deviceIDs f;
     Deprecated_Directory := Deprecated_Directory f;
     f_Deprecated_Nodes := f_Deprecated_Nodes f |}.

Definition set_Path (v : string) (f : FolderConfiguration) : FolderConfiguration :=
  {| ID := ID f; Path := v; f_Devices := f_Devices f; ReadOnly := ReadOnly f;
     RescanIntervalS := RescanIntervalS f; IgnorePerms := IgnorePerms f;
     Invalid := Invalid f; Versioning := Versioning f; deviceIDs := deviceIDs f;
     Deprecated_Directory := Deprecated_Directory f;
     f_Deprecated_Nodes := f_Deprecated_Nodes f |}.

Definition set_f_Devices (v : list FolderDeviceConfiguration)
    (f : FolderConfiguration) : FolderConfiguration :=
  {| ID := ID f; Path := Path f; f_Devices := v; ReadOnly := ReadOnly f;
     RescanIntervalS := RescanIntervalS f; IgnorePerms := IgnorePerms f;
     Invalid := Invalid f; Versioning := Versioning f; deviceIDs := deviceIDs f;
     Deprecated_Directory := Deprecated_Directory f;
     f_Deprecated_Nodes := f_Deprecated_Nodes f |}.

Definition set_ReadOnly (v : bool) (f : FolderConfiguration) : FolderConfiguration :=
  {| ID := ID f; Path := Path f; f_Devices := f_Devices f; ReadOnly := v;
     RescanIntervalS := RescanIntervalS f; IgnorePerms := IgnorePerms f;
     Invalid := Invalid f; Versioning := Versioning f; deviceIDs := deviceIDs f;
     Deprecated_Directory := Deprecated_Directory f;
     f_Deprecated_Nodes := f_Deprecated_Nodes f |}.

Definition set_RescanIntervalS (v : Z) (f : FolderConfiguration) : FolderConfiguration :=
  {| ID := ID f; Path := Path f; f_Devices := f_Devices f; ReadOnly := ReadOnly f;
     RescanIntervalS := v; IgnorePerms := IgnorePerms f;
     Invalid := Invalid f; Versioning := Versioning f; deviceIDs := deviceIDs f;
     Deprecated_Directory := Deprecated_Directory f;
     f_Deprecated_Nodes := f_Deprecated_Nodes f |}.

Definition set_Invalid (v : string) (f : FolderConfiguration) : FolderConfiguration :=
  {| ID := ID f; Path := Path f; f_Devices := f_Devices f; ReadOnly := ReadOnly f;
     RescanIntervalS := RescanIntervalS f; IgnorePerms := IgnorePerms f;
     Invalid := v; Versioning := Versioning f; deviceIDs := deviceIDs f;
     Deprecated_Directory := Deprecated_Directory f;
     f_Deprecated_Nodes := f_Deprecated_Nodes f |}.

Definition set_Deprecated_Directory (v : string) (f : FolderConfiguration) : FolderConfiguration :=
  {| ID := ID f; Path := Path f; f_Devices := f_Devices f; ReadOnly := ReadOnly f;
     RescanIntervalS := RescanIntervalS f; IgnorePerms := IgnorePerms f;
     Invalid := Invalid f; Versioning := Versioning f; deviceIDs := deviceIDs f;
     Deprecated_Directory := v;
     f_Deprecated_Nodes := f_Deprecated_Nodes f |}.

Definition set_f_Deprecated_Nodes (v : list FolderDeviceConfiguration)
    (f : FolderConfiguration) : FolderConfiguration :=
  {| ID := ID f; Path := Path f; f_Devices := f_Devices f; ReadOnly := ReadOnly f;
     RescanIntervalS := RescanIntervalS f; IgnorePerms := IgnorePerms f;
     Invalid := Invalid f; Versioning := Versioning f; deviceIDs := deviceIDs f;
     Deprecated_Directory := Deprecated_Directory f;
     f_Deprecated_Nodes := v |}.

Definition set_fd_Deprecated_Name (v : string)
    (n : FolderDeviceConfiguration) : FolderDeviceConfiguration :=
  {| fd_DeviceID := fd_DeviceID n; Deprecated_Name := v;
     Deprecated_Addresses := Deprecated_Addresses n |}.

Definition set_fd_Deprecated_Addresses (v : list string)
    (n : FolderDeviceConfiguration) : FolderDeviceConfiguration :=
  {| fd_DeviceID := fd_DeviceID n; Deprecated_Name := Deprecated_Name n;
     Deprecated_Addresses := v |}.

Definition set_Name (v : string) (d : DeviceConfiguration) : DeviceConfiguration :=
  {| d_DeviceID := d_DeviceID d; Name := v; Addresses := Addresses d;
     Compression := Compression d; CertName := CertName d;
     Introducer := Introducer d |}.

Definition set_Addresses (v : list string) (d : DeviceConfiguration) : DeviceConfiguration :=
  {| d_DeviceID := d_DeviceID d; Name := Name d; Addresses := v;
     Compression := Compression d; CertName := CertName d;
     Introducer := Introducer d |}.

Definition set_Compression (v : bool) (d : DeviceConfiguration) : DeviceConfiguration :=
  {| d_DeviceID := d_DeviceID d; Name := Name d; Addresses := Addresses d;
     Compression := v; CertName := CertName d; Introducer := Introducer d |}.

Definition set_Enabled (v : bool) (g : GUIConfiguration) : GUIConfiguration :=
  {| Enabled := v; Address := Address g; User := User g; Password := Password g;
     UseTLS := UseTLS g; APIKey := APIKey g |}.

Definition set_Address (v : string) (g : GUIConfiguration) : GUIConfiguration :=
  {| Enabled := Enabled g; Address := v; User := User g; Password := Password g;
     UseTLS := UseTLS g; APIKey := APIKey g |}.

Definition set_Password (v : string) (g : GUIConfiguration) : GUIConfiguration :=
  {| Enabled := Enabled g; Address := Address g; User := User g; Password := v;
     UseTLS := UseTLS g; APIKey := APIKey g |}.

Definition set_ListenAddress (v : option (list string))
    (o : OptionsConfiguration) : OptionsConfiguration :=
  let '(Build_OptionsConfiguration _ gas gae lae lap lam msk mrk ris sb ue ul ur
          ura row aui drs due dud dro dge dga) := o in
  Build_OptionsConfiguration v gas gae lae lap lam msk mrk ris sb ue ul ur
    ura row aui drs due dud dro dge dga.

Definition set_GlobalAnnServer (v : string)
    (o : OptionsConfiguration) : OptionsConfiguration :=
  let '(Build_OptionsConfiguration la _ gae lae lap lam msk mrk ris sb ue ul ur
          ura row aui drs due dud dro dge dga) := o in
  Build_OptionsConfiguration la v gae lae lap lam msk mrk ris sb ue ul ur
    ura row aui drs due dud dro dge dga.

Definition set_URAccepted (v : Z) (o : OptionsConfiguration) : OptionsConfiguration :=
  let '(Build_OptionsConfiguration la gas gae lae lap lam msk mrk ris sb ue ul ur
          _ row aui drs due dud dro dge dga) := o in
  Build_OptionsConfiguration la gas gae lae lap lam msk mrk ris sb ue ul ur
    v row aui drs due dud dro dge dga.

Definition set_Deprecated_RescanIntervalS (v : Z)
    (o : OptionsConfiguration) : OptionsConfiguration :=
  let '(Build_OptionsConfiguration la gas gae lae lap lam msk mrk ris sb ue ul ur
          ura row aui _ due dud dro dge dga) := o in
  Build_OptionsConfiguration la gas gae lae lap lam msk mrk ris sb ue ul ur
    ura row aui v due dud dro dge dga.

Definition set_Deprecated_UREnabled (v : bool)
    (o : OptionsConfiguration) : OptionsConfiguration :=
  let '(Build_OptionsConfiguration la gas gae lae lap lam msk mrk ris sb ue ul ur
          ura row aui drs _ dud dro dge dga) := o in
  Build_OptionsConfiguration la gas gae lae lap lam msk mrk ris sb ue ul ur
    ura row aui drs v dud dro dge dga.

Definition set_Deprecated_URDeclined (v : bool)
    (o : OptionsConfiguration) : OptionsConfiguration :=
  let '(Build_OptionsConfiguration la gas gae lae lap lam msk mrk ris sb ue ul ur
          ura row aui drs due _ dro dge dga) := o in
  Build_OptionsConfiguration la gas gae lae lap lam msk mrk ris sb ue ul ur
    ura row aui drs due v dro dge dga.

Definition set_Deprecated_ReadOnly (v : bool)
    (o : OptionsConfiguration) : OptionsConfiguration :=
  let '(Build_OptionsConfiguration la gas gae lae lap lam msk mrk ris sb ue ul ur
          ura row aui drs due dud _ dge dga) := o in
  Build_OptionsConfiguration la gas gae lae lap lam msk mrk ris sb ue ul ur
    ura row aui drs due dud v dge dga.

Definition set_Deprecated_GUIEnabled (v : bool)
    (o : OptionsConfiguration) : OptionsConfiguration :=
  let '(Build_OptionsConfiguration la gas gae lae lap lam msk mrk ris sb ue ul ur
          ura row aui drs due dud dro _ dga) := o in
  Build_OptionsConfiguration la gas gae lae lap lam msk mrk ris sb ue ul ur
    ura row aui drs due dud dro v dga.

Definition set_Deprecated_GUIAddress (v : string)
    (o : OptionsConfiguration) : OptionsConfiguration :=
  let '(Build_OptionsConfiguration la gas gae lae lap lam msk mrk ris sb ue ul ur
          ura row aui drs due dud dro dge _) := o in
  Build_OptionsConfiguration la gas gae lae lap lam msk mrk ris sb ue ul ur
    ura row aui drs due dud dro dge v.

Definition set_Location (v : string) (c : Configuration) : Configuration :=
  {| Location := v; Version := Version c; Folders := Folders c;
     Devices := Devices c; GUI := GUI c; Options := Options c;
     XMLName := XMLName c;
     Deprecated_Repositories := Deprecated_Repositories c;
     Deprecated_Nodes := Deprecated_Nodes c |}.

Definition set_Version (v : Z) (c : Configuration) : Configuration :=
  {| Location := Location c; Version := v; Folders := Folders c;
     Devices := Devices c; GUI := GUI c; Options := Options c;
     XMLName := XMLName c;
     Deprecated_Repositories := Deprecated_Repositories c;
     Deprecated_Nodes := Deprecated_Nodes c |}.

Definition set_Folders (v : list FolderConfiguration) (c : Configuration) : Configuration :=
  {| Location := Location c; Version := Version c; Folders := v;
     Devices := Devices c; GUI := GUI c; Options := Options c;
     XMLName := XMLName c;
     Deprecated_Repositories := Deprecated_Repositories c;
     Deprecated_Nodes := Deprecated_Nodes c |}.

Definition set_Devices (v : list DeviceConfiguration) (c : Configuration) : Configuration :=
  {| Location := Location c; Version := Version c; Folders := Folders c;
     Devices := v; GUI := GUI c; Options := Options c;
     XMLName := XMLName c;
     Deprecated_Repositories := Deprecated_Repositories c;
     Deprecated_Nodes := Deprecated_Nodes c |}.

Definition set_GUI (v : GUIConfiguration) (c : Configuration) : Configuration :=
  {| Location := Location c; Version := Version c; Folders := Folders c;
     Devices := Devices c; GUI := v; Options := Options c;
     XMLName := XMLName c;
     Deprecated_Repositories := Deprecated_Repositories c;
     Deprecated_Nodes := Deprecated_Nodes c |}.

Definition set_Options (v : OptionsConfiguration) (c : Configuration) : Configuration :=
  {| Location := Location c; Version := Version c; Folders := Folders c;
     Devices := Devices c; GUI := GUI c; Options := v;
     XMLName := XMLName c;
     Deprecated_Repositories := Deprecated_Repositories c;
     Deprecated_Nodes := Deprecated_Nodes c |}.

Definition set_Deprecated_Repositories (v : list FolderConfiguration)
    (c : Configuration) : Configuration :=
  {| Location := Location c; Version := Version c; Folders := Folders c;
     Devices := Devices c; GUI := GUI c; Options := Options c;
     XMLName := XMLName c;
     Deprecated_Repositories := v;
     Deprecated_Nodes := Deprecated_Nodes c |}.

Definition set_Deprecated_Nodes (v : list DeviceConfiguration)
    (c : Configuration) : Configuration :=
  {| Location := Location c; Version := Version c; Folders := Folders c;
     Devices := Devices c; GUI := GUI c; Options := Options c;
     XMLName := XMLName c;
     Deprecated_Repositories := Deprecated_Repositories c;
     Deprecated_Nodes := v |}.

(** ** Lookup helpers *)

Definition DeviceMap (cfg : Configuration) : gmap DeviceID DeviceConfiguration :=
  fold_left (fun m n => <[d_DeviceID n := n]> m) (Devices cfg) ∅.

Definition FolderMap (cfg : Configuration) : gmap string FolderConfiguration :=
  fold_left (fun m r => <[ID r := r]> m) (Folders cfg) ∅.

(** [GetDeviceConfiguration] returns a pointer to the first entry with the
    given identifier, here its index, or nil. *)
Definition GetDeviceConfiguration (cfg : Configuration) (deviceID : DeviceID) : option nat :=
  fst <$> list_find (fun device => d_DeviceID device = deviceID) (Devices cfg).

Definition GetFolderConfiguration (cfg : Configuration) (folderID : string) : option nat :=
  fst <$> list_find (fun folder => ID folder = folderID) (Folders cfg).

(** ** Default injection through reflection

    [reflect] shows a struct as its fields in declaration order.  The
    [default] tags belong to the struct type, the values to the instance. *)

Inductive Value : Type :=
| VString (s : string)
| VInt (n : Z)
| VBool (b : bool)
| VStrings (ss : option (list string))
| VOther.

Definition digitValue (c : ascii) : option Z :=
  let n := Z.of_N (N_of_ascii c) in
  if (48 <=? n) && (n <=? 57) then Some (n - 48) else None.

(** The digit loop of [strconv.ParseUint] in base 10 and 64 bits: the first
    offending character decides between a syntax and a range error. *)
Fixpoint ParseUint_digits (fn num s : string) (n : Z) : Z + error :=
  match s with
  | EmptyString => inl n
  | String c rest =>
      match digitValue c with
      | None => inr (ErrSyntax fn num)
      | Some d =>
          let n1 := n * 10 + d in
          if 2 ^ 64 <=? n1 then inr (ErrRange fn num)
          else ParseUint_digits fn num rest n1
      end
  end.

(** [strconv.ParseInt(s, 10, 64)]. *)
Definition ParseInt (s : string) : Z + error :=
  let fn := "ParseInt" in
  match s with
  | EmptyString => inr (ErrSyntax fn s)
  | String c rest =>
      let neg := bool_decide (c = "-"%char) in
      let body := if bool_decide (c = "+"%char) || neg then rest else s in
      match body with
      | EmptyString => inr (ErrSyntax fn s)
      | _ =>
          match ParseUint_digits fn s body 0 with
          | inr err => inr err
          | inl un =>
              if negb neg && (2 ^ 63 <=? un) then inr (ErrRange fn s)
              else if neg && (2 ^ 63 <? un) then inr (ErrRange fn s)
              else inl (if neg then - un else un)
          end
      end
  end.

(** [setDefaults]: the loop over the fields.  [tags] holds the [default]
    tag of every field (empty when the field has none), [fields] the
    current values.  The struct is updated in place, so the fields set
    before an early return keep their new values. *)
Fixpoint setDefaults (tags : list string) (fields : list Value)
    : Outcome (list Value * option error) :=
  match tags, fields with
  | v :: tags', f :: fields' =>
      let continue (f' : Value) :=
        match setDefaults tags' fields' with
        | Returned (rest, err) => Returned (f' :: rest, err)
        | Panicked msg => Panicked msg
        end in
      if (0 <? String.length v)%nat then
        match f with
        | VString _ => continue (VString v)
        | VInt _ =>
            match ParseInt v with
            | inr err => Returned (f :: fields', Some err)
            | inl i => continue (VInt i)
            end
        | VBool _ => continue (VBool (bool_decide (v = "true")))
        | VStrings _ => continue f
        | VOther => Panicked "unsupported field type"
        end
      else continue f
  | _, _ => Returned (fields, None)
  end.

(** [fillNilSlices] sets the default on string slices that are still nil. *)
Fixpoint fillNilSlices (tags : list string) (fields : list Value) : list Value :=
  match tags, fields with
  | v :: tags', f :: fields' =>
      (if (0 <? String.length v)%nat then
         match f with
         | VStrings None => VStrings (Some [v])
         | _ => f
         end
       else f) :: fillNilSlices tags' fields'
  | _, _ => fields
  end.

(** The three structs that receive defaults, as [reflect] sees them. *)
Definition Configuration_fields (c : Configuration) : list Value :=
  [VString (Location c); VInt (Version c); VOther; VOther; VOther; VOther;
   VOther; VOther; VOther].

Definition Configuration_store (fields : list Value) (c : Configuration) : Configuration :=
  match fields with
  | [VString loc; VInt ver; _; _; _; _; _; _; _] => set_Version ver (set_Location loc c)
  | _ => c
  end.

Definition Options_fields (o : OptionsConfiguration) : list Value :=
  [VStrings (ListenAddress o); VString (GlobalAnnServer o);
   VBool (GlobalAnnEnabled o); VBool (LocalAnnEnabled o); VInt (LocalAnnPort o);
   VString (LocalAnnMCAddr o); VInt (MaxSendKbps o); VInt (MaxRecvKbps o);
   VInt (ReconnectIntervalS o); VBool (StartBrowser o); VBool (UPnPEnabled o);
   VInt (UPnPLease o); VInt (UPnPRenewal o); VInt (URAccepted o);
   VBool (RestartOnWakeup o); VInt (AutoUpgradeIntervalH o);
   VInt (Deprecated_RescanIntervalS o); VBool (Deprecated_UREnabled o);
   VBool (Deprecated_URDeclined o); VBool (Deprecated_ReadOnly o);
   VBool (Deprecated_GUIEnabled o); VString (Deprecated_GUIAddress o)].

Definition Options_store (fields : list Value) (o : OptionsConfiguration) : OptionsConfiguration :=
  match fields with
  | [VStrings la; VString gas; VBool gae; VBool lae; VInt lap; VString lam;
     VInt msk; VInt mrk; VInt ris; VBool sb; VBool ue; VInt ul; VInt ur;
     VInt ura; VBool row; VInt aui; VInt drs; VBool due; VBool dud; VBool dro;
     VBool dge; VString dga] =>
      Build_OptionsConfiguration la gas gae lae lap lam msk mrk ris sb ue ul ur
        ura row aui drs due dud dro dge dga
  | _ => o
  end.

Definition GUI_fields (g : GUIConfiguration) : list Value :=
  [VBool (Enabled g); VString (Address g); VString (User g);
   VString (Password g); VBool (UseTLS g); VString (APIKey g)].

Definition GUI_store (fields : list Value) (g : GUIConfiguration) : GUIConfiguration :=
  match fields with
  | [VBool en; VString addr; VString user; VString pw; VBool tls; VString key] =>
      {| Enabled := en; Address := addr; User := user; Password := pw;
         UseTLS := tls; APIKey := key |}
  | _ => g
  end.

(** The [default] tags of a build, one list per struct type. *)
Record Schema : Type := {
  Configuration_tags : list string;
  Options_tags : list string;
  GUI_tags : list string
}.

(** The tags as the source declares them. *)
Definition declared : Schema :=
  {| Configuration_tags := [""; "5"; ""; ""; ""; ""; ""; ""; ""];
     Options_tags :=
       ["0.0.0.0:22000"; "announce.syncthing.net:22026"; "true"; "true";
        "21025"; "[ff32::5222]:21026"; ""; ""; "60"; "true"; "true"; "0"; "30";
        ""; "true"; "12"; ""; ""; ""; ""; ""; ""];
     GUI_tags := ["true"; "127.0.0.1:8080"; ""; ""; ""; ""] |}.

(** [uniqueStrings] collects the strings as the keys of a map and returns
    the keys; Go leaves the order of the result open. *)
Definition uniqueStrings (ss : list string) : list string :=
  elements (list_to_set ss : gset string).

(** ** Device lists of a folder *)

Definition DeviceConfigurationList_Less (a b : DeviceConfiguration) : bool :=
  Compare (d_DeviceID a) (d_DeviceID b) =? -1.

Definition FolderDeviceConfigurationList_Less (a b : FolderDeviceConfiguration) : bool :=
  Compare (fd_DeviceID a) (fd_DeviceID b) =? -1.

Definition ensureDevicePresent (devices : list FolderDeviceConfiguration)
    (myID : DeviceID) : list FolderDeviceConfiguration :=
  if existsb (fun device => Equals (fd_DeviceID device) myID) devices then devices
  else (devices ++ [{| fd_DeviceID := myID; Deprecated_Name := "";
                       Deprecated_Addresses := [] |}])%list.

(** The loop of [ensureExistingDevices] on the state [(devices, count, i)].
    The recursion is on [fuel]; [None] stands for a run that would need more
    iterations than [fuel], or an index outside the slice (a panic). *)
Fixpoint ensureExistingDevices_loop (fuel : nat) (existingDevices : gset DeviceID)
    (devices : list FolderDeviceConfiguration) (count i : nat)
    : option (list FolderDeviceConfiguration * nat) :=
  match fuel with
  | O => None
  | S fuel' =>
      if decide (i < count)%nat then
        match devices !! i with
        | None => None
        | Some d =>
            if decide (fd_DeviceID d ∈ existingDevices) then
              ensureExistingDevices_loop fuel' existingDevices devices count (S i)
            else
              match devices !! (count - 1)%nat with
              | None => None
              | Some last =>
                  ensureExistingDevices_loop fuel' existingDevices
                    (<[i := last]> devices) (count - 1)%nat i
              end
        end
      else Some (devices, count)
  end.

(** Every iteration either advances [i] or lowers [count], so the loop stops
    within [len(devices)] iterations, one more test ends it. *)
Definition ensureExistingDevices (devices : list FolderDeviceConfiguration)
    (existingDevices : gset DeviceID) : list FolderDeviceConfiguration :=
  match ensureExistingDevices_loop (S (length devices)) existingDevices devices
          (length devices) 0 with
  | Some (devices', count) => take count devices'
  | None => devices
  end.

Fixpoint ensureNoDuplicates_loop (fuel : nat) (seenDevices : gset DeviceID)
    (devices : list FolderDeviceConfiguration) (count i : nat)
    : option (list FolderDeviceConfiguration * nat) :=
  match fuel with
  | O => None
  | S fuel' =>
      if decide (i < count)%nat then
        match devices !! i with
        | None => None
        | Some d =>
            let id := fd_DeviceID d in
            if decide (id ∈ seenDevices) then
              match devices !! (count - 1)%nat with
              | None => None
              | Some last =>
                  ensureNoDuplicates_loop fuel' seenDevices
                    (<[i := last]> devices) (count - 1)%nat i
              end
            else
              ensureNoDuplicates_loop fuel' ({[id]} ∪ seenDevices) devices count (S i)
        end
      else Some (devices, count)
  end.

Definition ensureNoDuplicates (devices : list FolderDeviceConfiguration)
    : list FolderDeviceConfiguration :=
  match ensureNoDuplicates_loop (S (length devices)) ∅ devices (length devices) 0 with
  | Some (devices', count) => take count devices'
  | None => devices
  end.

(** ** The migration chain *)

(** The inner loop of [convertV1V2] over the embedded devices of folder [i]:
    [device] is the element as it was before the assignment to index [j]. *)
Definition convertV1V2_nodes (i : nat)
    (st : list FolderConfiguration * gmap DeviceID FolderDeviceConfiguration)
    (nodes : list FolderDeviceConfiguration)
    : list FolderConfiguration * gmap DeviceID FolderDeviceConfiguration :=
  fold_left
    (fun st '(j, device) =>
       let '(repos, devices) := st in
       let id := fd_DeviceID device in
       let devices :=
         match devices !! id with
         | Some _ => devices
         | None => <[id := device]> devices
         end in
       let repos :=
         alter (fun r =>
                  set_f_Deprecated_Nodes
                    (<[j := {| fd_DeviceID := fd_DeviceID device;
                               Deprecated_Name := "";
                               Deprecated_Addresses := [] |}]>
                       (f_Deprecated_Nodes r)) r) i repos in
       (repos, devices))
    (imap pair nodes) st.

(** [convertV1V2].  The map of collected devices is keyed by
    [DeviceID.String()], an injective rendering of the identifier; the
    identifier itself is the key here.  The collected devices are appended
    in the iteration order of the map, which Go leaves open, and sorted
    right after. *)
Definition convertV1V2 (cfg : Configuration) : Configuration :=
  let readOnly := Deprecated_ReadOnly (Options cfg) in
  let '(repos, devices) :=
    fold_left
      (fun st '(i, folder) =>
         let '(repos, devices) := st in
         let repos := alter (set_ReadOnly readOnly) i repos in
         convertV1V2_nodes i (repos, devices) (f_Deprecated_Nodes folder))
      (imap pair (Deprecated_Repositories cfg))
      (Deprecated_Repositories cfg, ∅) in
  let cfg := set_Deprecated_Repositories repos cfg in
  let cfg := set_Options (set_Deprecated_ReadOnly false (Options cfg)) cfg in
  let nodes :=
    fold_left
      (fun nodes '(_, device) =>
         (nodes ++ [{| d_DeviceID := fd_DeviceID device;
                       Name := Deprecated_Name device;
                       Addresses := Deprecated_Addresses device;
                       Compression := false; CertName := "";
                       Introducer := false |}])%list)
      (map_to_list devices) (Deprecated_Nodes cfg) in
  let cfg := set_Deprecated_Nodes (sort_Sort DeviceConfigurationList_Less nodes) cfg in
  let cfg := set_GUI (set_Address (Deprecated_GUIAddress (Options cfg)) (GUI cfg)) cfg in
  let cfg := set_GUI (set_Enabled (Deprecated_GUIEnabled (Options cfg)) (GUI cfg)) cfg in
  let cfg := set_Options (set_Deprecated_GUIEnabled false (Options cfg)) cfg in
  let cfg := set_Options (set_Deprecated_GUIAddress "" (Options cfg)) cfg in
  set_Version 2 cfg.

Definition convertV2V3 (cfg : Configuration) : Configuration :=
  let cfg := set_Deprecated_Nodes (map (set_Compression true) (Deprecated_Nodes cfg)) cfg in
  let cfg :=
    if bool_decide (GlobalAnnServer (Options cfg) = "announce.syncthing.net:22025")
    then set_Options (set_GlobalAnnServer "announce.syncthing.net:22026" (Options cfg)) cfg
    else cfg in
  set_Version 3 cfg.

(** The second loop of [convertV3V4] at folder [i], device [j]:
    [rncfg := cfg.Deprecated_Repositories[i].Deprecated_Nodes[j]] copies the
    element into a local variable, the two assignments change that local
    copy, and nothing is stored back into the slice. *)
Definition convertV3V4_node (repos : list FolderConfiguration) (i j : nat)
    : list FolderConfiguration :=
  match repos !! i ≫= (fun r => f_Deprecated_Nodes r !! j) with
  | None => repos
  | Some rncfg =>
      let rncfg := set_fd_Deprecated_Name "" rncfg in
      let rncfg := set_fd_Deprecated_Addresses [] rncfg in
      repos
  end.

Definition convertV3V4 (cfg : Configuration) : Configuration :=
  let interval := Deprecated_RescanIntervalS (Options cfg) in
  let cfg :=
    set_Deprecated_Repositories
      (map (set_RescanIntervalS interval) (Deprecated_Repositories cfg)) cfg in
  let cfg := set_Options (set_Deprecated_RescanIntervalS 0 (Options cfg)) cfg in
  let repos :=
    fold_left
      (fun repos '(i, folder) =>
         fold_left (fun repos j => convertV3V4_node repos i j)
           (seq 0 (length (f_Deprecated_Nodes folder))) repos)
      (imap pair (Deprecated_Repositories cfg)) (Deprecated_Repositories cfg) in
  let cfg := set_Deprecated_Repositories repos cfg in
  set_Version 4 cfg.

Definition convertV4V5 (cfg : Configuration) : Configuration :=
  let cfg := set_Devices (Deprecated_Nodes cfg) cfg in
  let cfg := set_Folders (Deprecated_Repositories cfg) cfg in
  let cfg :=
    set_Folders
      (map (fun f =>
              let f := set_Path (Deprecated_Directory f) f in
              let f := set_Deprecated_Directory "" f in
              let f := set_f_Devices (f_Deprecated_Nodes f) f in
              set_f_Deprecated_Nodes [] f)
         (Folders cfg)) cfg in
  let cfg := set_Deprecated_Nodes [] cfg in
  let cfg := set_Deprecated_Repositories [] cfg in
  set_Version 5 cfg.

(** The four guarded upgrade steps of [prepare], in the order of the source. *)
Definition migrate (cfg : Configuration) : Configuration :=
  let cfg := if Version cfg =? 1 then convertV1V2 cfg else cfg in
  let cfg := if Version cfg =? 2 then convertV2V3 cfg else cfg in
  let cfg := if Version cfg =? 3 then convertV3V4 cfg else cfg in
  let cfg := if Version cfg =? 4 then convertV4V5 cfg else cfg in
  cfg.

(** ** The consistency normaliser *)

(** State of the folder-identifier check: the folder slice, the map from
    claimed identifiers to the folder that claimed them (a pointer into the
    slice, hence an index) and the counter for fresh suffixes. *)
Record FolderCheck : Type := {
  fc_Folders : list FolderConfiguration;
  seenFolders : gmap string nat;
  uniqueCounter : Z
}.

Definition folderID (folders : list FolderConfiguration) (i : nat) : string :=
  default "" (ID <$> folders !! i).

(** One iteration of the loop "Check for missing, bad or duplicate folder
    ID:s" with [folder := &cfg.Folders[i]]. *)
Definition checkFolder (st : FolderCheck) (i : nat) : FolderCheck :=
  match fc_Folders st !! i with
  | None => st
  | Some folder =>
      if (String.length (Path folder) =? 0)%nat then
        {| fc_Folders := alter (set_Invalid "no directory configured") i (fc_Folders st);
           seenFolders := seenFolders st;
           uniqueCounter := uniqueCounter st |}
      else
        let folders := fc_Folders st in
        let folders :=
          if bool_decide (folderID folders i = "")
          then alter (set_ID "default") i folders else folders in
        match seenFolders st !! folderID folders i with
        | Some seen =>
            let folders := alter (set_Invalid "duplicate folder ID") seen folders in
            let '(folders, counter) :=
              if bool_decide (folderID folders seen = folderID folders i) then
                let counter := uniqueCounter st + 1 in
                (alter (set_ID (Sprintf_s_tilde_d (folderID folders i) counter))
                   seen folders, counter)
              else (folders, uniqueCounter st) in
            let folders := alter (set_Invalid "duplicate folder ID") i folders in
            let counter := counter + 1 in
            let folders :=
              alter (set_ID (Sprintf_s_tilde_d (folderID folders i) counter)) i folders in
            {| fc_Folders := folders;
               seenFolders := seenFolders st;
               uniqueCounter := counter |}
        | None =>
            {| fc_Folders := folders;
               seenFolders := <[folderID folders i := i]> (seenFolders st);
               uniqueCounter := uniqueCounter st |}
        end
  end.

Definition checkFolders (folders : list FolderConfiguration) : list FolderConfiguration :=
  fc_Folders
    (fold_left checkFolder (seq 0 (length folders))
       {| fc_Folders := folders; seenFolders := ∅; uniqueCounter := 0 |}).

(** The last three statements of the loop over [cfg.Folders] in [prepare],
    before the sort. *)
Definition prepareFolderDevices (myID : DeviceID) (existingDevices : gset DeviceID)
    (devices : list FolderDeviceConfiguration) : list FolderDeviceConfiguration :=
  let devices := ensureDevicePresent devices myID in
  let devices := ensureExistingDevices devices existingDevices in
  let devices := ensureNoDuplicates devices in
  sort_Sort FolderDeviceConfigurationList_Less devices.

Definition dynamicAddresses (n : DeviceConfiguration) : DeviceConfiguration :=
  if (length (Addresses n) =? 0)%nat
     || ((length (Addresses n) =? 1)%nat && bool_decide (Addresses n !! 0%nat = Some ""))
  then set_Addresses ["dynamic"] n else n.

(** "Build a list of available devices": the local identity and every
    declared device. *)
Definition existingDevices (myID : DeviceID) (devices : list DeviceConfiguration)
    : gset DeviceID :=
  {[myID]} ∪ list_to_set (d_DeviceID <$> devices).

Section Prepare.

(** [os.Hostname()], whose error [prepare] drops. *)
Variable os_Hostname : string.
(** [bcrypt.GenerateFromPassword(pw, 0)]: the hash, or [None] on error. *)
Variable bcrypt_GenerateFromPassword : string → option string.

Definition hashPassword (cfg : Configuration) : Configuration :=
  match Password (GUI cfg) with
  | String c _ =>
      if bool_decide (c ≠ "$"%char) then
        match bcrypt_GenerateFromPassword (Password (GUI cfg)) with
        | None => cfg
        | Some hash => set_GUI (set_Password hash (GUI cfg)) cfg
        end
      else cfg
  | EmptyString => cfg
  end.

(** [prepare] up to the migration chain: sequence defaults, listen
    addresses, folder identifiers and the usage-reporting flags. *)
Definition prepareStart (cfg : Configuration) : Configuration :=
  let cfg :=
    set_Options (Options_store (fillNilSlices (Options_tags declared)
                                  (Options_fields (Options cfg))) (Options cfg)) cfg in
  let cfg :=
    set_Options
      (set_ListenAddress
         (Some (uniqueStrings (default [] (ListenAddress (Options cfg)))))
         (Options cfg)) cfg in
  (* cfg.Folders == nil: the empty slice is the same list *)
  let cfg := set_Folders (checkFolders (Folders cfg)) cfg in
  let cfg :=
    if Deprecated_URDeclined (Options cfg)
    then set_Options (set_URAccepted (-1) (Options cfg)) cfg else cfg in
  let cfg := set_Options (set_Deprecated_URDeclined false (Options cfg)) cfg in
  set_Options (set_Deprecated_UREnabled false (Options cfg)) cfg.

(** [prepare] after the migration chain: password, devices, membership and
    addresses. *)
Definition prepareFinish (myID : DeviceID) (cfg : Configuration) : Configuration :=
  let cfg := hashPassword cfg in
  let existingDevices := existingDevices myID (Devices cfg) in
  let cfg :=
    match GetDeviceConfiguration cfg myID with
    | None =>
        set_Devices
          (Devices cfg ++ [{| d_DeviceID := myID; Name := os_Hostname;
                              Addresses := []; Compression := false;
                              CertName := ""; Introducer := false |}])%list cfg
    | Some _ => cfg
    end in
  let cfg := set_Devices (sort_Sort DeviceConfigurationList_Less (Devices cfg)) cfg in
  let cfg :=
    set_Folders
      (map (fun f => set_f_Devices
                       (prepareFolderDevices myID existingDevices (f_Devices f)) f)
         (Folders cfg)) cfg in
  set_Devices (map dynamicAddresses (Devices cfg)) cfg.

Definition prepare (myID : DeviceID) (cfg : Configuration) : Configuration :=
  prepareFinish myID (migrate (prepareStart cfg)).

End Prepare.

(** The migration chain as a table: source version and step. *)
Definition chain : list (Z * (Configuration → Configuration)) :=
  [(1, convertV1V2); (2, convertV2V3); (3, convertV3V4); (4, convertV4V5)].

(** Runs the given steps one after the other, each only on a document whose
    version is the step's source version; [None] when a step finds another
    version. *)
Fixpoint runSteps (steps : list (Z * (Configuration → Configuration)))
    (cfg : Configuration) : option Configuration :=
  match steps with
  | [] => Some cfg
  | (v, step) :: rest =>
      if Version cfg =? v then runSteps rest (step cfg) else None
  end.

(** ** Counting the local identity *)

Definition rootOccurrences (myID : DeviceID) (devices : list DeviceConfiguration) : nat :=
  length (filter (λ d, d_DeviceID d = myID) devices).

Definition memberOccurrences (myID : DeviceID)
    (devices : list FolderDeviceConfiguration) : nat :=
  length (filter (λ e, fd_DeviceID e = myID) devices).

(** The local identity occurs exactly once in the root device list and in
    the membership list of every folder. *)
Definition localIdentityOnce (myID : DeviceID) (cfg : Configuration) : Prop :=
  rootOccurrences myID (Devices cfg) = 1%nat
  ∧ Forall (λ f, memberOccurrences myID (f_Devices f) = 1%nat) (Folders cfg).

(** ** Zero values and sample documents *)

Definition zeroOptions : OptionsConfiguration :=
  Build_OptionsConfiguration None "" false false 0 "" 0 0 0 false false 0 0 0
    false 0 0 false false false false "".

Definition zeroGUI : GUIConfiguration :=
  {| Enabled := false; Address := ""; User := ""; Password := "";
     UseTLS := false; APIKey := "" |}.

Definition zeroFolder : FolderConfiguration :=
  {| ID := ""; Path := ""; f_Devices := []; ReadOnly := false;
     RescanIntervalS := 0; IgnorePerms := false; Invalid := "";
     Versioning := {| Type_ := ""; Params := ∅ |}; deviceIDs := [];
     Deprecated_Directory := ""; f_Deprecated_Nodes := [] |}.

Definition zeroDevice : DeviceConfiguration :=
  {| d_DeviceID := 0%N; Name := ""; Addresses := []; Compression := false;
     CertName := ""; Introducer := false |}.

Definition zeroConfiguration : Configuration :=
  {| Location := ""; Version := 0; Folders := []; Devices := [];
     GUI := zeroGUI; Options := zeroOptions; XMLName := ("", "");
     Deprecated_Repositories := []; Deprecated_Nodes := [] |}.

Local Open Scope N_scope.

Definition device (id : DeviceID) (name : string) : DeviceConfiguration :=
  {| d_DeviceID := id; Name := name; Addresses := []; Compression := false;
     CertName := ""; Introducer := false |}.

Definition member (id : DeviceID) : FolderDeviceConfiguration :=
  {| fd_DeviceID := id; Deprecated_Name := ""; Deprecated_Addresses := [] |}.

(** A current-version document whose root list names device 7 twice. *)
Definition sample_twiceInRoot : Configuration :=
  set_Version 5
    (set_Devices [device 7 "here"; device 7 "here again"]
       (set_Folders
          [set_f_Devices [member 7; member 9; member 7] (set_Path "/data" zeroFolder)]
          zeroConfiguration)).

(** A current-version document with two folders that have a path and no
    identifier. *)
Definition sample_twoUnnamed : Configuration :=
  set_Version 5
    (set_Devices [device 7 "here"]
       (set_Folders [set_Path "/data/a" zeroFolder; set_Path "/data/b" zeroFolder]
          zeroConfiguration)).

(** A version-3 document: one repository with one embedded device record. *)
Definition sample_v3 : Configuration :=
  set_Version 3
    (set_Options (set_Deprecated_RescanIntervalS 30%Z zeroOptions)
       (set_Deprecated_Repositories
          [set_f_Deprecated_Nodes
             [{| fd_DeviceID := 1; Deprecated_Name := "laptop";
                 Deprecated_Addresses := ["192.0.2.1:22000"] |}]
             (set_Deprecated_Directory "/data" (set_ID "photos" zeroFolder))]
          zeroConfiguration)).

(** A version-1 document: one repository with two embedded device records. *)
Definition sample_v1 : Configuration :=
  set_Version 1
    (set_Options (set_Deprecated_RescanIntervalS 30%Z zeroOptions)
       (set_Deprecated_Repositories
          [set_f_Deprecated_Nodes
             [{| fd_DeviceID := 9; Deprecated_Name := "desktop";
                 Deprecated_Addresses := ["dynamic"] |};
              {| fd_DeviceID := 1; Deprecated_Name := "laptop";
                 Deprecated_Addresses := ["192.0.2.1:22000"] |}]
             (set_Deprecated_Directory "/data" (set_ID "photos" zeroFolder))]
          zeroConfiguration)).

Local Close Scope N_scope.

(** ** Restart-impact analysis *)

(** [reflect.DeepEqual] on values of one type built from strings, numbers,
    booleans, slices and maps of strings: equality of the values.  (A nil
    and an empty slice are one list here, where Go tells them apart.) *)
Definition DeepEqual {A : Type} `{EqDecision A} (x y : A) : bool :=
  bool_decide (x = y).

(** [m[id]] on a Go map: the stored value, or the zero value. *)
Definition folderAt (m : gmap string FolderConfiguration) (id : string)
    : FolderConfiguration :=
  default zeroFolder (m !! id).

(** The loops over the keys of a map return [true] at the first key that
    fails the test, so their outcome does not depend on the order in which
    Go visits the keys. *)
Definition ChangeRequiresRestart (from to : Configuration) : bool :=
  if negb (length (Folders from) =? length (Folders to))%nat then true
  else
    let fromFolders := FolderMap from in
    let toFolders := FolderMap to in
    if existsb (λ id, negb (DeepEqual (folderAt fromFolders id) (folderAt toFolders id)))
         (map_to_list fromFolders).*1
    then true
    else
      let fromDevices := DeviceMap from in
      let toDevices := DeviceMap to in
      if existsb (λ deviceID, negb (bool_decide (is_Some (toDevices !! deviceID))))
           (map_to_list fromDevices).*1
      then true
      else
        if negb (DeepEqual (Options from) (Options to))
           || negb (DeepEqual (GUI from) (GUI to))
        then true
        else false.

Local Open Scope N_scope.

(** A current-version document with two folders and two devices. *)
Definition sample_shared : Configuration :=
  set_Version 5
    (set_Devices [device 3 "laptop"; device 7 "here"]
       (set_Folders
          [set_f_Devices [member 3; member 7] (set_ID "photos" (set_Path "/data/a" zeroFolder));
           set_f_Devices [member 7] (set_ID "music" (set_Path "/data/b" zeroFolder))]
          zeroConfiguration)).

Local Close Scope N_scope.

(** ** Saving *)

(** The notifications of the event bus that [Save] can publish. *)
Inductive Event : Type :=
| ConfigSaved (cfg : Configuration).

(** What [Save] can touch: the files by path, the published events and the
    warnings written to the log. *)
Record Disk : Type := {
  files : gmap string string;
  events : list Event;
  warnings : list error
}.

(** How the system calls of one run of [Save] end: [None] for success.  A
    failed [Encode] or [Write] may have put part of its output into the
    file; the fault carries what the file holds afterwards. *)
Record Faults : Type := {
  create_fault : option error;
  encode_fault : option (string * error);
  write_fault : option (string * error);
  close_fault : option error;
  rename_fault : option error
}.

Definition set_files (v : gmap string string) (d : Disk) : Disk :=
  {| files := v; events := events d; warnings := warnings d |}.

Definition Warnln (err : error) (d : Disk) : Disk :=
  {| files := files d; events := events d; warnings := warnings d ++ [err] |}.

Definition Log (e : Event) (d : Disk) : Disk :=
  {| files := files d; events := events d ++ [e]; warnings := warnings d |}.

(** Modelled from the spec: [osutil.Rename] is in a package that is not
    among the sources; the spec takes it as an atomic replace, so that the
    destination holds the new content after a success and is untouched
    after a failure. *)
Definition Rename (fault : option error) (from to : string) (d : Disk)
    : option error * Disk :=
  match fault with
  | Some err => (Some err, d)
  | None =>
      match files d !! from with
      | Some text => (None, set_files (<[to := text]> (delete from (files d))) d)
      | None => (None, d)
      end
  end.

Section Save.

(** [xml.Encoder.Encode] with the four-space indentation: the text of the
    document. *)
Variable xml_Encode : Configuration → string.

Definition Save (cfg : Configuration) (faults : Faults) (d : Disk)
    : option error * Disk :=
  let tmp := Location cfg +:+ ".tmp" in
  match create_fault faults with
  | Some err => (Some err, Warnln err d)
  | None =>
      let d := set_files (<[tmp := ""]> (files d)) d in
      match encode_fault faults with
      | Some (partial, err) => (Some err, set_files (<[tmp := partial]> (files d)) d)
      | None =>
          let d := set_files (<[tmp := xml_Encode cfg]> (files d)) d in
          match write_fault faults with
          | Some (partial, err) =>
              (Some err, Warnln err (set_files (<[tmp := partial]> (files d)) d))
          | None =>
              let d :=
                set_files (<[tmp := xml_Encode cfg +:+ String "010"%char ""]> (files d)) d in
              match close_fault faults with
              | Some err => (Some err, Warnln err d)
              | None =>
                  let '(err, d) := Rename (rename_fault faults) tmp (Location cfg) d in
                  let d := match err with Some e => Warnln e d | None => d end in
                  let d := Log (ConfigSaved cfg) d in
                  (err, d)
              end
          end
      end
  end.

Definition wroteTemporary (faults : Faults) : Prop :=
  create_fault faults = None ∧ encode_fault faults = None
  ∧ write_fault faults = None ∧ close_fault faults = None.

End Save.

(** A run of [Save] whose write of the final newline fails, one whose
    rename fails, and a disk that holds an older configuration file. *)
Definition faults_write : Faults :=
  {| create_fault := None; encode_fault := None;
     write_fault := Some ("<configuration", ErrIO "write" "/etc/st/config.xml.tmp");
     close_fault := None; rename_fault := None |}.

Definition faults_rename : Faults :=
  {| create_fault := None; encode_fault := None; write_fault := None;
     close_fault := None;
     rename_fault := Some (ErrIO "rename" "/etc/st/config.xml.tmp") |}.

Definition sample_disk : Disk :=
  {| files := {[ "/etc/st/config.xml" := "<configuration version=4/>" ]};
     events := []; warnings := [] |}.

(** ** Construction and loading *)

(** The three calls [setDefaults(&cfg)], [setDefaults(&cfg.Options)] and
    [setDefaults(&cfg.GUI)] that open [New] and [Load].  The error a call
    returns is not looked at; a panic ends the program. *)
Definition applyDefaults (schema : Schema) (cfg : Configuration) : Outcome Configuration :=
  match setDefaults (Configuration_tags schema) (Configuration_fields cfg) with
  | Panicked msg => Panicked msg
  | Returned (fields, _) =>
      let cfg := Configuration_store fields cfg in
      match setDefaults (Options_tags schema) (Options_fields (Options cfg)) with
      | Panicked msg => Panicked msg
      | Returned (fields, _) =>
          let cfg := set_Options (Options_store fields (Options cfg)) cfg in
          match setDefaults (GUI_tags schema) (GUI_fields (GUI cfg)) with
          | Panicked msg => Panicked msg
          | Returned (fields, _) =>
              Returned (set_GUI (GUI_store fields (GUI cfg)) cfg)
          end
      end
  end.

Section Load.

Variable os_Hostname : string.
Variable bcrypt_GenerateFromPassword : string → option string.
(** [os.Open]: the content of the file, or the error. *)
Variable os_Open : string → string + error.
(** [xml.Decoder.Decode] of a file content into a configuration that holds
    the defaults: the configuration afterwards and the decoder's error. *)
Variable xml_Decode : string → Configuration → Configuration * option error.

(** [New] and [Load] for a build with the given [default] tags. *)
Definition New_with (schema : Schema) (location : string) (myID : DeviceID)
    : Outcome Configuration :=
  let cfg := set_Location location zeroConfiguration in
  match applyDefaults schema cfg with
  | Panicked msg => Panicked msg
  | Returned cfg =>
      Returned (prepare os_Hostname bcrypt_GenerateFromPassword myID cfg)
  end.

Definition Load_with (schema : Schema) (location : string) (myID : DeviceID)
    : Outcome (Configuration * option error) :=
  let cfg := set_Location location zeroConfiguration in
  match applyDefaults schema cfg with
  | Panicked msg => Panicked msg
  | Returned cfg =>
      match os_Open location with
      | inr err => Returned (zeroConfiguration, Some err)
      | inl content =>
          let '(cfg, err) := xml_Decode content cfg in
          Returned (prepare os_Hostname bcrypt_GenerateFromPassword myID cfg, err)
      end
  end.

Definition New : string → DeviceID → Outcome Configuration := New_with declared.

Definition Load : string → DeviceID → Outcome (Configuration * option error) :=
  Load_with declared.

End Load.

(** The configuration that the declared defaults give at a location. *)
Definition defaultOptions : OptionsConfiguration :=
  {| ListenAddress := None;
     GlobalAnnServer := "announce.syncthing.net:22026";
     GlobalAnnEnabled := true; LocalAnnEnabled := true; LocalAnnPort := 21025;
     LocalAnnMCAddr := "[ff32::5222]:21026"; MaxSendKbps := 0; MaxRecvKbps := 0;
     ReconnectIntervalS := 60; StartBrowser := true; UPnPEnabled := true;
     UPnPLease := 0; UPnPRenewal := 30; URAccepted := 0; RestartOnWakeup := true;
     AutoUpgradeIntervalH := 12; Deprecated_RescanIntervalS := 0;
     Deprecated_UREnabled := false; Deprecated_URDeclined := false;
     Deprecated_ReadOnly := false; Deprecated_GUIEnabled := false;
     Deprecated_GUIAddress := "" |}.

Definition defaultGUI : GUIConfiguration :=
  {| Enabled := true; Address := "127.0.0.1:8080"; User := ""; Password := "";
     UseTLS := false; APIKey := "" |}.

Definition defaultConfiguration (location : string) : Configuration :=
  {| Location := location; Version := 5; Folders := []; Devices := [];
     GUI := defaultGUI; Options := defaultOptions; XMLName := ("", "");
     Deprecated_Repositories := []; Deprecated_Nodes := [] |}.

(** The declared tags with another default for [Configuration.Version]. *)
Definition withVersionDefault (v : string) : Schema :=
  {| Configuration_tags := [""; v; ""; ""; ""; ""; ""; ""; ""];
     Options_tags := Options_tags declared;
     GUI_tags := GUI_tags declared |}.

(** ** Invariants of the folder check *)

(** What holds after the first [n] folders are checked: the recorded
    folders are among them, and a checked folder that is not marked
    invalid is the folder recorded for its identifier. *)
Definition checked (n : nat) (st : FolderCheck) : Prop :=
  (∀ id k, seenFolders st !! id = Some k → (k < n)%nat)
  ∧ ∀ k f, (k < n)%nat → fc_Folders st !! k = Some f → Invalid f = "" →
           seenFolders st !! ID f = Some k.

(** The folder but for its identifier and its [Invalid] mark. *)
Definition unmarked (f : FolderConfiguration) : FolderConfiguration :=
  set_Invalid "" (set_ID "" f).

(** What the check has kept after [n] folders: every folder is the input
    folder but for [ID] and [Invalid], the folders from [n] on are
    untouched, a checked folder without path only got its mark, and only
    checked folders with a path are recorded. *)
Definition kept (orig : list FolderConfiguration) (n : nat) (st : FolderCheck) : Prop :=
  length (fc_Folders st) = length orig
  ∧ (∀ k f0, orig !! k = Some f0 →
       ∃ f, fc_Folders st !! k = Some f ∧ unmarked f = unmarked f0
            ∧ ((n ≤ k)%nat → f = f0)
            ∧ ((k < n)%nat → Path f0 = "" →
               f = set_Invalid "no directory configured" f0))
  ∧ ∀ id s, seenFolders st !! id = Some s →
            (s < n)%nat ∧ ∃ f0, orig !! s = Some f0 ∧ Path f0 ≠ "".

Local Open Scope N_scope.

(** A current-version document with a folder claimed twice and a folder
    without path. *)
Definition sample_collision : Configuration :=
  set_Version 5
    (set_Devices [device 7 "here"]
       (set_Folders
          [set_ID "photos" (set_Path "/data/a" zeroFolder);
           set_ID "music" (set_Path "/data/m" zeroFolder);
           set_ID "photos" (set_Path "/data/b" zeroFolder);
           set_ID "music" zeroFolder]
          zeroConfiguration)).

Local Close Scope N_scope.

(** ** The versioning element *)

Record InternalParam : Type := {
  Key : string;
  Val : string
}.

Record InternalVersioningConfiguration : Type := {
  i_Type : string;
  i_Params : list InternalParam
}.

(** What [MarshalXML] hands to the encoder: the parameters as a list, in
    the order in which Go walks the map, which it leaves open. *)
Definition marshalled (c : VersioningConfiguration) : InternalVersioningConfiguration :=
  {| i_Type := Type_ c;
     i_Params := (λ kv, {| Key := kv.1; Val := kv.2 |}) <$> map_to_list (Params c) |}.

Definition MarshalXML (EncodeElement : InternalVersioningConfiguration → option error)
    (c : VersioningConfiguration) : option error :=
  EncodeElement (marshalled c).

(** [UnmarshalXML] on what [DecodeElement] gives for the element: the
    decoded value or the error. *)
Definition UnmarshalXML (decoded : InternalVersioningConfiguration + error)
    (c : VersioningConfiguration) : VersioningConfiguration * option error :=
  match decoded with
  | inr err => (c, Some err)
  | inl tmp =>
      ({| Type_ := i_Type tmp;
          Params := fold_left (λ m p, <[Key p := Val p]> m) (i_Params tmp) ∅ |},
       None)
  end.

(** ** Cached device identifiers *)

Definition set_deviceIDs (v : list DeviceID) (f : FolderConfiguration) : FolderConfiguration :=
  {| ID := ID f; Path := Path f; f_Devices := f_Devices f; ReadOnly := ReadOnly f;
     RescanIntervalS := RescanIntervalS f; IgnorePerms := IgnorePerms f;
     Invalid := Invalid f; Versioning := Versioning f; deviceIDs := v;
     Deprecated_Directory := Deprecated_Directory f;
     f_Deprecated_Nodes := f_Deprecated_Nodes f |}.

(** [DeviceIDs] has a pointer receiver: it returns the identifiers and
    leaves them in the folder's cache.  The cache counts as filled when it
    is not nil, which for a slice built by [append] means not empty. *)
Definition DeviceIDs (r : FolderConfiguration) : list DeviceID * FolderConfiguration :=
  match deviceIDs r with
  | [] =>
      let r := fold_left (λ r n, set_deviceIDs (deviceIDs r ++ [fd_DeviceID n]) r)
                 (f_Devices r) r in
      (deviceIDs r, r)
  | _ => (deviceIDs r, r)
  end.

(** A versioning policy with two parameters. *)
Definition sample_versioning : VersioningConfiguration :=
  {| Type_ := "staggered";
     Params := {[ "maxAge" := "365"; "cleanInterval" := "3600" ]} |}.

(** * Properties *)

(** ** Migration chain *)

Lemma Version_convertV1V2 cfg : Version (convertV1V2 cfg) = 2.
Proof. unfold convertV1V2. by destruct (fold_left _ _ _). Qed.

Lemma Version_convertV2V3 cfg : Version (convertV2V3 cfg) = 3.
Proof. done. Qed.

Lemma Version_convertV3V4 cfg : Version (convertV3V4 cfg) = 4.
Proof. done. Qed.

Lemma Version_convertV4V5 cfg : Version (convertV4V5 cfg) = 5.
Proof. done. Qed.

Lemma Version_prepareStart cfg : Version (prepareStart cfg) = Version cfg.
Proof.
  unfold prepareStart. cbv zeta.
  by destruct (Deprecated_URDeclined _).
Qed.

Lemma migrate_current cfg : Version cfg = 5 → migrate cfg = cfg.
Proof. intros Hv. unfold migrate. cbv zeta. by repeat (rewrite Hv; simpl). Qed.

Lemma migrate_runs_chain cfg :
  1 ≤ Version cfg ≤ 5 →
  runSteps (drop (Z.to_nat (Version cfg - 1)) chain) cfg = Some (migrate cfg)
  ∧ Version (migrate cfg) = 5.
Proof.
  intros Hv.
  assert (Version cfg = 1 ∨ Version cfg = 2 ∨ Version cfg = 3
          ∨ Version cfg = 4 ∨ Version cfg = 5) as Hcases by lia.
  unfold migrate; cbv zeta.
  destruct Hcases as [H|[H|[H|[H|H]]]];
    repeat first
      [ rewrite H | rewrite Version_convertV1V2 | rewrite Version_convertV2V3
      | rewrite Version_convertV3V4 | rewrite Version_convertV4V5
      | progress simpl ];
    done.
Qed.

Lemma migrate_no_step cfg : ¬ (1 ≤ Version cfg ≤ 4) → migrate cfg = cfg.
Proof.
  intros Hv. unfold migrate. cbv zeta.
  repeat match goal with
         | |- context [Version cfg =? ?k] =>
             destruct (Z.eqb_spec (Version cfg) k); [lia|]
         end.
  done.
Qed.

Lemma Folders_prepareStart cfg : Folders (prepareStart cfg) = checkFolders (Folders cfg).
Proof.
  unfold prepareStart. cbv zeta.
  by destruct (Deprecated_URDeclined _).
Qed.

Lemma checkFolders_two_unnamed f1 f2 :
  Path f1 ≠ "" → Path f2 ≠ "" → ID f1 = "" → ID f2 = "" →
  checkFolders [f1; f2]
  = [set_ID "default~1" (set_Invalid "duplicate folder ID" (set_ID "default" f1));
     set_ID "default~2" (set_Invalid "duplicate folder ID" (set_ID "default" f2))].
Proof.
  destruct f1 as [id1 path1 ?????????], f2 as [id2 path2 ?????????]; simpl.
  intros Hp1 Hp2 -> ->.
  destruct path1 as [|c1 path1]; [done|].
  destruct path2 as [|c2 path2]; [done|].
  reflexivity.
Qed.

(** The second loop of [convertV3V4] stores nothing. *)
Lemma convertV3V4_node_id repos i j : convertV3V4_node repos i j = repos.
Proof. unfold convertV3V4_node. by case_match. Qed.

Lemma convertV3V4_scrub_id (l : list (nat * FolderConfiguration)) repos :
  fold_left
    (λ repos '(i, folder),
       fold_left (λ repos j, convertV3V4_node repos i j)
         (seq 0 (length (f_Deprecated_Nodes folder))) repos) l repos
  = repos.
Proof.
  induction l as [|[i folder] l IH]; simpl; [done|].
  rewrite <- IH at 2. f_equal.
  induction (seq 0 _) as [|j js IHj]; simpl; [done|].
  by rewrite convertV3V4_node_id.
Qed.

(** [convertV3V4] changes the repositories in their rescan interval only. *)
Lemma convertV3V4_Repositories cfg :
  Deprecated_Repositories (convertV3V4 cfg)
  = set_RescanIntervalS (Deprecated_RescanIntervalS (Options cfg))
      <$> Deprecated_Repositories cfg.
Proof.
  unfold convertV3V4. cbv zeta.
  cbn [Deprecated_Repositories set_Version set_Deprecated_Repositories set_Options].
  by rewrite convertV3V4_scrub_id.
Qed.

(** ** Sorting rearranges *)

Lemma insertLeft_Permutation {A} (less : A → A → bool) x l :
  insertLeft less x l ≡ₚ x :: l.
Proof.
  induction l as [|y l IH]; simpl; [done|].
  destruct (less x y); [done|].
  rewrite IH. apply Permutation_swap.
Qed.

Lemma sort_Sort_Permutation {A} (less : A → A → bool) l :
  sort_Sort less l ≡ₚ l.
Proof.
  unfold sort_Sort.
  assert (∀ acc, fold_left (λ acc x, insertLeft less x acc) l acc ≡ₚ l ++ acc) as H.
  { induction l as [|x l IH]; intros acc; simpl; [done|].
    rewrite IH, insertLeft_Permutation. by rewrite Permutation_middle. }
  by rewrite H, app_nil_r.
Qed.

(** ** Removal by overwriting with the last live element *)

Lemma swap_remove_Permutation {A} (l : list A) (i count : nat) d last :
  (i < count ≤ length l)%nat →
  l !! i = Some d →
  l !! (count - 1)%nat = Some last →
  take count l ≡ₚ d :: take (count - 1) (<[i:=last]> l).
Proof.
  intros [Hi Hc] Hd Hlast.
  replace count with (S (count - 1)) at 1 by lia.
  rewrite (take_S_r _ _ _ Hlast).
  destruct (decide (i = count - 1)%nat) as [->|Hne].
  - rewrite list_insert_id by done.
    assert (d = last) as -> by congruence.
    symmetry. apply Permutation_cons_append.
  - rewrite take_insert_lt by lia.
    assert (take (count - 1) l !! i = Some d) as Ht.
    { rewrite lookup_take_lt by lia. done. }
    rewrite insert_take_drop by (rewrite length_take; lia).
    set (t := take (count - 1) l) in *.
    rewrite <- (take_drop_middle _ _ _ Ht) at 1.
    rewrite <- app_assoc. simpl.
    rewrite <- !Permutation_middle. by rewrite app_nil_r.
Qed.

(** ** [ensureExistingDevices] *)

Lemma ensureExistingDevices_loop_spec fuel (ex : gset DeviceID) devices count i :
  (i ≤ count ≤ length devices)%nat →
  (count - i < fuel)%nat →
  Forall (λ d, fd_DeviceID d ∈ ex) (take i devices) →
  ∃ devices' count',
    ensureExistingDevices_loop fuel ex devices count i = Some (devices', count')
    ∧ take count' devices' ≡ₚ filter (λ d, fd_DeviceID d ∈ ex) (take count devices).
Proof.
  revert devices count i.
  induction fuel as [|fuel IH]; intros devices count i Hb Hf Hall; [lia|].
  simpl. destruct (decide (i < count)%nat) as [Hlt|Hge].
  - destruct (lookup_lt_is_Some_2 devices i) as [d Hd]; [lia|].
    rewrite Hd.
    destruct (decide (fd_DeviceID d ∈ ex)) as [Hin|Hout].
    + apply IH; [lia|lia|].
      rewrite (take_S_r _ _ _ Hd). apply Forall_app. split; [done|].
      by apply Forall_singleton.
    + destruct (lookup_lt_is_Some_2 devices (count - 1)%nat) as [last Hlast]; [lia|].
      rewrite Hlast.
      destruct (IH (<[i:=last]> devices) (count - 1)%nat i) as (ds & c & Hrun & Hperm).
      * rewrite length_insert. lia.
      * lia.
      * by rewrite take_insert_ge by lia.
      * exists ds, c. split; [done|].
        rewrite Hperm.
        rewrite (swap_remove_Permutation devices i count d last) by (done || lia).
        by rewrite filter_cons_False.
  - exists devices, count. split; [done|].
    assert (i = count) as -> by lia.
    clear -Hall. induction (take count devices) as [|x l IHl]; [done|].
    apply Forall_cons in Hall as [Hx Hl].
    rewrite filter_cons_True by done. f_equiv. by apply IHl.
Qed.

Lemma ensureExistingDevices_Permutation devices (ex : gset DeviceID) :
  ensureExistingDevices devices ex ≡ₚ filter (λ d, fd_DeviceID d ∈ ex) devices.
Proof.
  unfold ensureExistingDevices.
  destruct (ensureExistingDevices_loop_spec (S (length devices)) ex devices
              (length devices) 0) as (ds & c & -> & Hperm); [lia|lia|by rewrite take_0|].
  by rewrite Hperm, firstn_all.
Qed.

(** ** [ensureNoDuplicates] *)

Lemma ensureNoDuplicates_loop_spec fuel (seen : gset DeviceID) devices count i :
  (i ≤ count ≤ length devices)%nat →
  (count - i < fuel)%nat →
  seen = list_to_set (fd_DeviceID <$> take i devices) →
  NoDup (fd_DeviceID <$> take i devices) →
  ∃ devices' count',
    ensureNoDuplicates_loop fuel seen devices count i = Some (devices', count')
    ∧ NoDup (fd_DeviceID <$> take count' devices')
    ∧ take count' devices' ⊆+ take count devices
    ∧ ∀ id, id ∈ fd_DeviceID <$> take count devices →
            id ∈ fd_DeviceID <$> take count' devices'.
Proof.
  revert seen devices count i.
  induction fuel as [|fuel IH]; intros seen devices count i Hb Hf Hseen Hnd; [lia|].
  simpl. destruct (decide (i < count)%nat) as [Hlt|Hge].
  - destruct (lookup_lt_is_Some_2 devices i) as [d Hd]; [lia|].
    rewrite Hd.
    destruct (decide (fd_DeviceID d ∈ seen)) as [Hin|Hout].
    + destruct (lookup_lt_is_Some_2 devices (count - 1)%nat) as [last Hlast]; [lia|].
      rewrite Hlast.
      pose proof (swap_remove_Permutation devices i count d last
                    (conj Hlt (proj2 Hb)) Hd Hlast) as Hswap.
      destruct (IH seen (<[i:=last]> devices) (count - 1)%nat i)
        as (ds & c & Hrun & Hnd' & Hsub & Hids).
      * rewrite length_insert. lia.
      * lia.
      * by rewrite take_insert_ge by lia.
      * by rewrite take_insert_ge by lia.
      * exists ds, c. split_and!; [done|done| |].
        -- rewrite Hsub, Hswap. by apply submseteq_cons.
        -- intros id Hid. apply Hids.
           rewrite Hswap, fmap_cons in Hid.
           apply elem_of_cons in Hid as [->|Hid]; [|done].
           rewrite Hseen in Hin. apply elem_of_list_to_set in Hin.
           rewrite <- (take_insert_ge devices i i last) in Hin by lia.
           revert Hin. rewrite !list_elem_of_fmap.
           intros (x & Hx & Hxin). exists x. split; [done|].
           assert (take i (<[i:=last]> devices)
                   = take i (take (count - 1) (<[i:=last]> devices))) as Heq.
           { rewrite take_take. f_equal. lia. }
           rewrite Heq in Hxin. by apply subseteq_take in Hxin.
    + apply IH; [lia|lia| |].
      * rewrite (take_S_r _ _ _ Hd), fmap_app, list_to_set_app_L, Hseen.
        simpl. by rewrite (right_id_L ∅ (∪)), (comm_L (∪)).
      * rewrite (take_S_r _ _ _ Hd), fmap_app. simpl.
        apply NoDup_app. split_and!; [done| |apply NoDup_singleton].
        intros x Hx. rewrite list_elem_of_singleton. intros ->.
        apply Hout. rewrite Hseen. by apply elem_of_list_to_set.
  - exists devices, count. assert (i = count) as -> by lia. by split_and!.
Qed.

Lemma ensureNoDuplicates_spec devices :
  NoDup (fd_DeviceID <$> ensureNoDuplicates devices)
  ∧ ensureNoDuplicates devices ⊆+ devices
  ∧ ∀ id, id ∈ fd_DeviceID <$> devices → id ∈ fd_DeviceID <$> ensureNoDuplicates devices.
Proof.
  unfold ensureNoDuplicates.
  destruct (ensureNoDuplicates_loop_spec (S (length devices)) ∅ devices
              (length devices) 0) as (ds & c & -> & Hnd & Hsub & Hids);
    [lia|lia|by rewrite take_0|rewrite take_0; constructor|].
  by rewrite firstn_all in *.
Qed.

Lemma Equals_eq a b : Equals a b = true ↔ a = b.
Proof.
  unfold Equals, Compare. destruct (N.compare_spec a b); split; (done || lia).
Qed.

Lemma occurs_zero {A B} `{EqDecision B} (f : A → B) (l : list A) (x : B) :
  x ∉ f <$> l → length (filter (λ a, f a = x) l) = 0%nat.
Proof.
  induction l as [|a l IH]; simpl; intros Hnin; [done|].
  apply not_elem_of_cons in Hnin as [Hne Hnin].
  rewrite filter_cons_False by done. by apply IH.
Qed.

Lemma occurs_once {A B} `{EqDecision B} (f : A → B) (l : list A) (x : B) :
  NoDup (f <$> l) → x ∈ f <$> l → length (filter (λ a, f a = x) l) = 1%nat.
Proof.
  induction l as [|a l IH]; simpl; intros Hnd Hin.
  - by apply elem_of_nil in Hin.
  - apply NoDup_cons in Hnd as [Ha Hnd].
    destruct (decide (f a = x)) as [<-|Hne].
    + rewrite filter_cons_True by done. simpl. f_equal. by apply occurs_zero.
    + rewrite filter_cons_False by done. apply IH; [done|].
      apply elem_of_cons in Hin as [?|?]; [congruence|done].
Qed.

Lemma occurs_Permutation {A B} `{EqDecision B} (f : A → B) (l k : list A) (x : B) :
  l ≡ₚ k → length (filter (λ a, f a = x) l) = length (filter (λ a, f a = x) k).
Proof. intros Hp. by rewrite Hp. Qed.

(** ** Membership lists after [prepare] *)

Lemma ensureDevicePresent_ids devices myID id :
  id ∈ fd_DeviceID <$> ensureDevicePresent devices myID
  ↔ id ∈ fd_DeviceID <$> devices ∨ id = myID.
Proof.
  unfold ensureDevicePresent.
  destruct (existsb _ devices) eqn:Hex.
  - split; [by left|]. intros [?| ->]; [done|].
    apply existsb_exists in Hex as (d & Hd & Heq).
    apply Equals_eq in Heq as <-.
    apply list_elem_of_fmap_2. by apply list_elem_of_In.
  - rewrite fmap_app, elem_of_app. simpl. by rewrite list_elem_of_singleton.
Qed.

Lemma prepareFolderDevices_spec myID (ex : gset DeviceID) devices :
  myID ∈ ex →
  NoDup (fd_DeviceID <$> prepareFolderDevices myID ex devices)
  ∧ ∀ id, id ∈ fd_DeviceID <$> prepareFolderDevices myID ex devices
          ↔ (id ∈ fd_DeviceID <$> devices ∨ id = myID) ∧ id ∈ ex.
Proof.
  intros Hme. unfold prepareFolderDevices.
  set (present := ensureDevicePresent devices myID).
  set (existing := ensureExistingDevices present ex).
  destruct (ensureNoDuplicates_spec existing) as (Hnd & Hsub & Hids).
  pose proof (sort_Sort_Permutation FolderDeviceConfigurationList_Less
                (ensureNoDuplicates existing)) as Hsort.
  split; [by rewrite Hsort|].
  intros id. rewrite Hsort.
  assert (id ∈ fd_DeviceID <$> existing
          ↔ (id ∈ fd_DeviceID <$> devices ∨ id = myID) ∧ id ∈ ex) as Hex.
  { unfold existing. rewrite ensureExistingDevices_Permutation.
    rewrite <- ensureDevicePresent_ids. fold present.
    rewrite !list_elem_of_fmap. setoid_rewrite list_elem_of_filter.
    split; [intros (x & -> & ? & ?)|intros [(x & -> & ?) ?]]; eauto. }
  rewrite <- Hex. split; [|apply Hids].
  rewrite !list_elem_of_fmap. intros (x & -> & Hx). exists x. split; [done|].
  by eapply elem_of_submseteq.
Qed.

Lemma d_DeviceID_dynamicAddresses n : d_DeviceID (dynamicAddresses n) = d_DeviceID n.
Proof. unfold dynamicAddresses. by case_match. Qed.

Lemma GetDeviceConfiguration_None cfg myID :
  GetDeviceConfiguration cfg myID = None ↔ myID ∉ d_DeviceID <$> Devices cfg.
Proof.
  unfold GetDeviceConfiguration. rewrite fmap_None, list_find_None.
  rewrite Forall_forall, list_elem_of_fmap. split.
  - intros H (d & -> & Hd). by apply (H d).
  - intros H d Hd Heq. apply H. by exists d.
Qed.

Lemma occurs_fmap {A B} `{EqDecision B} (f : A → B) (g : A → A) (l : list A) (x : B) :
  (∀ a, f (g a) = f a) →
  length (filter (λ a, f a = x) (g <$> l)) = length (filter (λ a, f a = x) l).
Proof.
  intros Hg. induction l as [|a l IH]; [done|].
  rewrite fmap_cons, !filter_cons, Hg.
  destruct (decide (f a = x)); simpl; by rewrite IH.
Qed.

Lemma occurs_positive {A B} `{EqDecision B} (f : A → B) (l : list A) (x : B) :
  x ∈ f <$> l → (1 ≤ length (filter (λ a, f a = x) l))%nat.
Proof.
  induction l as [|a l IH]; simpl; intros Hin.
  - by apply elem_of_nil in Hin.
  - destruct (decide (f a = x)) as [Heq|Hne].
    + rewrite filter_cons_True by done. simpl. lia.
    + rewrite filter_cons_False by done. apply IH.
      apply elem_of_cons in Hin as [?|?]; [congruence|done].
Qed.

Section PrepareProperties.

Variable os_Hostname : string.
Variable bcrypt_GenerateFromPassword : string → option string.

Local Abbreviation prepare := (prepare os_Hostname bcrypt_GenerateFromPassword).
Local Abbreviation prepareFinish := (prepareFinish os_Hostname bcrypt_GenerateFromPassword).
Local Abbreviation hashPassword := (hashPassword bcrypt_GenerateFromPassword).

Lemma Version_hashPassword cfg : Version (hashPassword cfg) = Version cfg.
Proof. unfold config.hashPassword. by repeat case_match. Qed.

Lemma Version_prepareFinish myID cfg : Version (prepareFinish myID cfg) = Version cfg.
Proof.
  unfold config.prepareFinish. simpl. case_match; simpl; apply Version_hashPassword.
Qed.


Lemma Devices_hashPassword cfg : Devices (hashPassword cfg) = Devices cfg.
Proof. unfold config.hashPassword. by repeat case_match. Qed.

Lemma Folders_hashPassword cfg : Folders (hashPassword cfg) = Folders cfg.
Proof. unfold config.hashPassword. by repeat case_match. Qed.

(** The root device list that leaves [prepareFinish]. *)
Lemma Devices_prepareFinish myID cfg :
  Devices (prepareFinish myID cfg)
  = dynamicAddresses <$>
      sort_Sort DeviceConfigurationList_Less
        (Devices cfg ++
           if decide (myID ∈ d_DeviceID <$> Devices cfg) then []
           else [{| d_DeviceID := myID; Name := os_Hostname; Addresses := [];
                    Compression := false; CertName := ""; Introducer := false |}]).
Proof.
  unfold config.prepareFinish. cbv zeta.
  pose proof (GetDeviceConfiguration_None (hashPassword cfg) myID) as Hnone.
  rewrite Devices_hashPassword in Hnone.
  destruct (GetDeviceConfiguration (hashPassword cfg) myID) eqn:Hget; simpl.
  - rewrite decide_True, app_nil_r, ?Devices_hashPassword; [done|].
    destruct (decide (myID ∈ d_DeviceID <$> Devices cfg)) as [|Hn]; [done|].
    apply Hnone in Hn. done.
  - rewrite decide_False, ?Devices_hashPassword; [done|]. by apply Hnone.
Qed.

Lemma Folders_prepareFinish myID cfg :
  Folders (prepareFinish myID cfg)
  = (λ f, set_f_Devices
            (prepareFolderDevices myID (existingDevices myID (Devices cfg))
               (f_Devices f)) f) <$> Folders cfg.
Proof.
  unfold config.prepareFinish. cbv zeta.
  destruct (GetDeviceConfiguration (hashPassword cfg) myID); simpl;
    by rewrite Folders_hashPassword, Devices_hashPassword.
Qed.

(** The identifiers of the final root list are the existing-device set. *)
Lemma root_ids_prepareFinish myID cfg id :
  id ∈ d_DeviceID <$> Devices (prepareFinish myID cfg)
  ↔ id ∈ existingDevices myID (Devices cfg).
Proof.
  rewrite Devices_prepareFinish, <- list_fmap_compose.
  rewrite (list_fmap_ext (d_DeviceID ∘ dynamicAddresses) d_DeviceID)
    by (intros; apply d_DeviceID_dynamicAddresses).
  rewrite sort_Sort_Permutation, fmap_app, elem_of_app.
  unfold existingDevices. rewrite elem_of_union, elem_of_singleton, elem_of_list_to_set.
  destruct (decide (myID ∈ d_DeviceID <$> Devices cfg)) as [Hin|Hnin]; simpl.
  - rewrite elem_of_nil. split; [intros [?|[]]; by right|].
    intros [->|?]; by left.
  - rewrite list_elem_of_singleton. tauto.
Qed.

(** C7. After [prepare], in every folder each membership edge names a
    device of the final root device list and no two edges name the same
    device.  Folder by folder, the devices named after [prepare] are exactly
    those named before the membership pass (or the local identity) that are
    in the root list: an edge to an unknown device is gone, an edge to a
    known device stays. *)
Theorem prepare_edges_reference_root_devices (myID : DeviceID) (cfg : Configuration) :
  let mid := migrate (prepareStart cfg) in
  let out := prepare myID cfg in
  Forall (λ f, (∀ e, e ∈ f_Devices f →
                     fd_DeviceID e ∈ d_DeviceID <$> Devices out)
               ∧ NoDup (fd_DeviceID <$> f_Devices f)) (Folders out)
  ∧ Forall2 (λ fin fout,
               ∀ id, id ∈ fd_DeviceID <$> f_Devices fout
                     ↔ (id ∈ fd_DeviceID <$> f_Devices fin ∨ id = myID)
                       ∧ id ∈ d_DeviceID <$> Devices out)
      (Folders mid) (Folders out).
Proof.
  intros mid out.
  assert (out = prepareFinish myID mid) as Hout by reflexivity.
  clearbody out mid. subst out.
  rewrite Folders_prepareFinish.
  assert (myID ∈ existingDevices myID (Devices mid)) as Hme.
  { unfold existingDevices. apply elem_of_union_l. by apply elem_of_singleton. }
  split.
  - apply Forall_fmap, Forall_forall. intros f _.
    unfold compose. cbn [f_Devices set_f_Devices].
    destruct (prepareFolderDevices_spec myID _ (f_Devices f) Hme) as [Hnd Hids].
    split; [|done].
    intros e He. apply root_ids_prepareFinish.
    apply (Hids (fd_DeviceID e)). by apply list_elem_of_fmap_2.
  - apply Forall2_fmap_r, Forall_Forall2_diag, Forall_forall.
    intros f _ id. rewrite root_ids_prepareFinish. cbn [f_Devices set_f_Devices].
    by destruct (prepareFolderDevices_spec myID _ (f_Devices f) Hme) as [_ ->].
Qed.

(** C2, as the code has it.  After [prepare] the local identity occurs
    exactly once in the membership list of every folder.  The root device
    list gains an entry for it only when it has none, and is never
    deduplicated: the local identity occurs there as often as it did after
    the migration phase, and once when it did not occur. *)
Theorem prepare_local_identity_present (myID : DeviceID) (cfg : Configuration) :
  let mid := migrate (prepareStart cfg) in
  let out := prepare myID cfg in
  Forall (λ f, memberOccurrences myID (f_Devices f) = 1%nat) (Folders out)
  ∧ rootOccurrences myID (Devices out)
    = Nat.max 1 (rootOccurrences myID (Devices mid)).
Proof.
  intros mid out.
  assert (out = prepareFinish myID mid) as Hout by reflexivity.
  clearbody out mid. subst out. split.
  - rewrite Folders_prepareFinish.
    apply Forall_fmap, Forall_forall. intros f _.
    unfold compose. cbn [f_Devices set_f_Devices].
    assert (myID ∈ existingDevices myID (Devices mid)) as Hme.
    { unfold existingDevices. apply elem_of_union_l. by apply elem_of_singleton. }
    destruct (prepareFolderDevices_spec myID _ (f_Devices f) Hme) as [Hnd Hids].
    apply occurs_once; [done|]. apply Hids. split; [by right|done].
  - unfold rootOccurrences. rewrite Devices_prepareFinish.
    rewrite occurs_fmap by apply d_DeviceID_dynamicAddresses.
    rewrite sort_Sort_Permutation, filter_app, length_app.
    destruct (decide (myID ∈ d_DeviceID <$> Devices mid)) as [Hin|Hnin].
    + apply occurs_positive in Hin. rewrite filter_nil. cbn [length]. lia.
    + rewrite (occurs_zero d_DeviceID) by done.
      by rewrite filter_cons_True.
Qed.

(** C4, as the code has it.  On a document that needs no migration step
    (its version is not between 1 and 4, as for the current version 5) and
    holds exactly two folders, both with a path and without identifier,
    [prepare] keeps both folders in place, marks both invalid as duplicates
    and names them "default~1" and "default~2" in document order. *)
Theorem prepare_two_unnamed_folders (myID : DeviceID) (cfg : Configuration)
    (f1 f2 : FolderConfiguration) :
  Folders cfg = [f1; f2] →
  Path f1 ≠ "" → Path f2 ≠ "" → ID f1 = "" → ID f2 = "" →
  ¬ (1 ≤ Version cfg ≤ 4) →
  ∃ g1 g2,
    Folders (prepare myID cfg) = [g1; g2]
    ∧ ID g1 = "default~1" ∧ ID g2 = "default~2"
    ∧ Invalid g1 = "duplicate folder ID" ∧ Invalid g2 = "duplicate folder ID"
    ∧ Path g1 = Path f1 ∧ Path g2 = Path f2.
Proof.
  intros Hf Hp1 Hp2 Hi1 Hi2 Hv. unfold config.prepare.
  rewrite migrate_no_step by by rewrite Version_prepareStart.
  rewrite Folders_prepareFinish, Folders_prepareStart, Hf.
  rewrite checkFolders_two_unnamed by done.
  eexists _, _. split; [reflexivity|]. by split_and!.
Qed.

End PrepareProperties.


Lemma prepare_two_unnamed_folders_witness :
  ∃ g1 g2,
    Folders (prepare "host" (λ _, None) 7%N sample_twoUnnamed) = [g1; g2]
    ∧ ID g1 = "default~1" ∧ ID g2 = "default~2"
    ∧ Invalid g1 = "duplicate folder ID" ∧ Invalid g2 = "duplicate folder ID"
    ∧ Path g1 = "/data/a" ∧ Path g2 = "/data/b".
Proof.
  apply (prepare_two_unnamed_folders "host" (λ _, None) 7%N sample_twoUnnamed
           (set_Path "/data/a" zeroFolder) (set_Path "/data/b" zeroFolder));
    first [reflexivity | discriminate | (vm_compute; intros [_ H]; by apply H)].
Defined.

(** C4, as stated, fails: neither folder is called "default" after
    [prepare]. *)
Lemma prepare_two_unnamed_folders_not_default :
  ¬ (ID <$> Folders (prepare "host" (λ _, None) 7%N sample_twoUnnamed)
     ≡ₚ ["default"; "default~1"]).
Proof.
  intros Hperm.
  assert ("default" ∈ ID <$> Folders (prepare "host" (λ _, None) 7%N sample_twoUnnamed))
    as Hin by (rewrite Hperm; left).
  vm_compute in Hin.
  repeat (apply elem_of_cons in Hin as [Hin|Hin]; [discriminate|]).
  by apply elem_of_nil in Hin.
Qed.

(** C3 at a version-3 document with one folder and one embedded device
    record: the folder receives the node-wide rescan interval, and the
    record keeps its name and its addresses. *)
Example convertV3V4_keeps_node_name_and_addresses :
  RescanIntervalS <$> Deprecated_Repositories (convertV3V4 sample_v3) = [30]
  ∧ f_Deprecated_Nodes <$> Deprecated_Repositories (convertV3V4 sample_v3)
    = [[{| fd_DeviceID := 1%N; Deprecated_Name := "laptop";
           Deprecated_Addresses := ["192.0.2.1:22000"] |}]].
Proof. by rewrite convertV3V4_Repositories. Qed.

(** C2, as stated, fails: a root device list that names the local identity
    twice still names it twice after [prepare]. *)
Lemma prepare_local_identity_twice :
  ¬ localIdentityOnce 7%N (prepare "host" (λ _, None) 7%N sample_twiceInRoot).
Proof. intros [Hroot _]. vm_compute in Hroot. discriminate. Qed.


(** ** Restart-impact analysis *)

Lemma existsb_false {A} (f : A → bool) (l : list A) :
  (∀ x, x ∈ l → f x = false) → existsb f l = false.
Proof.
  induction l as [|a l IH]; simpl; intros H; [done|].
  rewrite H by left. simpl. apply IH. intros x Hx. apply H. by right.
Qed.

Lemma DeepEqual_refl {A} `{EqDecision A} (x : A) : DeepEqual x x = true.
Proof. unfold DeepEqual. by rewrite bool_decide_eq_true. Qed.

Lemma dom_DeviceMap_fold (devices : list DeviceConfiguration)
    (m : gmap DeviceID DeviceConfiguration) :
  dom (fold_left (λ m n, <[d_DeviceID n := n]> m) devices m)
  = list_to_set (d_DeviceID <$> devices) ∪ dom m.
Proof.
  revert m. induction devices as [|n devices IH]; intros m; simpl.
  - by rewrite (left_id_L ∅ (∪)).
  - rewrite IH, dom_insert_L. by rewrite (assoc_L (∪)), (comm_L (∪) {[_]}).
Qed.

Lemma dom_DeviceMap cfg :
  dom (DeviceMap cfg) = list_to_set (d_DeviceID <$> Devices cfg).
Proof.
  unfold DeviceMap. by rewrite dom_DeviceMap_fold, dom_empty_L, (right_id_L ∅ (∪)).
Qed.

(** C8. Removing a folder from a configuration and changing nothing else
    requires a restart; changing only the display name of a device that
    stays in the configuration does not. *)
Theorem ChangeRequiresRestart_removal_and_rename (from : Configuration) (i : nat) :
  ((i < length (Folders from))%nat →
   ChangeRequiresRestart from (set_Folders (delete i (Folders from)) from) = true)
  ∧ (∀ d name, Devices from !! i = Some d →
       ChangeRequiresRestart from
         (set_Devices (<[i := set_Name name d]> (Devices from)) from) = false).
Proof.
  split.
  - intros Hi. unfold ChangeRequiresRestart.
    cbn [Folders set_Folders]. rewrite length_delete by by apply lookup_lt_is_Some_2.
    destruct (Nat.eqb_spec (length (Folders from)) (length (Folders from) - 1)); [lia|done].
  - intros d name Hd. unfold ChangeRequiresRestart. cbv zeta.
    set (to := set_Devices _ from).
    assert (FolderMap to = FolderMap from) as -> by done.
    change (Folders to) with (Folders from).
    change (Options to) with (Options from).
    change (GUI to) with (GUI from).
    rewrite Nat.eqb_refl, !DeepEqual_refl. simpl.
    rewrite existsb_false by (intros; by rewrite DeepEqual_refl).
    rewrite existsb_false; [done|].
    intros deviceID Hin.
    apply negb_false_iff, bool_decide_eq_true, elem_of_dom.
    apply list_elem_of_fmap in Hin as ([k v] & -> & Hin). simpl.
    apply elem_of_map_to_list in Hin.
    assert (k ∈ dom (DeviceMap from)) as Hk by (apply elem_of_dom; eauto).
    rewrite dom_DeviceMap in *.
    unfold to. cbn [Devices set_Devices].
    rewrite list_fmap_insert. cbn [d_DeviceID set_Name].
    rewrite list_insert_id; [done|].
    by rewrite list_lookup_fmap, Hd.
Qed.

Lemma ChangeRequiresRestart_removal_and_rename_witness :
  ChangeRequiresRestart sample_shared
    (set_Folders (delete 0%nat (Folders sample_shared)) sample_shared) = true
  ∧ ChangeRequiresRestart sample_shared
      (set_Devices (<[0%nat := set_Name "notebook" (device 3%N "laptop")]>
                      (Devices sample_shared)) sample_shared) = false.
Proof.
  destruct (ChangeRequiresRestart_removal_and_rename sample_shared 0) as [Hrem Hren].
  split.
  - apply Hrem. vm_compute. lia.
  - apply Hren. reflexivity.
Defined.

(** ** Saving *)

Lemma String_length_app (s t : string) :
  String.length (s +:+ t) = (String.length s + String.length t)%nat.
Proof. induction s as [|c s IH]; simpl; [done|]. by rewrite IH. Qed.

Lemma tmp_ne_Location (s : string) : s +:+ ".tmp" ≠ s.
Proof.
  intros H. apply (f_equal String.length) in H.
  rewrite String_length_app in H. simpl in H. lia.
Qed.

Section SaveProperties.

Variable xml_Encode : Configuration → string.

Local Abbreviation Save := (Save xml_Encode).


(** Once the temporary file is written and closed, [Save] publishes
    "configuration saved" whether the rename succeeds or not, and returns
    the outcome of the rename.  After a successful rename the real location
    holds the encoded document followed by a newline and the temporary file
    is gone; after a failed rename the real location is as it was. *)
Theorem Save_publishes_after_rename (cfg : Configuration) (faults : Faults) (d : Disk) :
  wroteTemporary faults →
  (Save cfg faults d).1 = rename_fault faults
  ∧ events (Save cfg faults d).2 = events d ++ [ConfigSaved cfg]
  ∧ match rename_fault faults with
    | None =>
        files (Save cfg faults d).2 !! Location cfg
          = Some (xml_Encode cfg +:+ String "010"%char "")
        ∧ files (Save cfg faults d).2 !! (Location cfg +:+ ".tmp") = None
    | Some _ =>
        files (Save cfg faults d).2 !! Location cfg = files d !! Location cfg
    end.
Proof.
  intros (H1 & H2 & H3 & H4). unfold config.Save. rewrite H1, H2, H3, H4.
  pose proof (tmp_ne_Location (Location cfg)) as Hne.
  unfold Rename. destruct (rename_fault faults) as [e5|]; cbn.
  - by rewrite !lookup_insert_ne.
  - rewrite lookup_insert_eq. cbn.
    rewrite lookup_insert_eq, lookup_insert_ne, lookup_delete_eq by done. done.
Qed.

End SaveProperties.


Lemma Save_publishes_after_rename_witness :
  (Save (λ _, "<configuration/>") (set_Location "/etc/st/config.xml" sample_shared)
     faults_rename sample_disk).1 = rename_fault faults_rename
  ∧ events (Save (λ _, "<configuration/>")
              (set_Location "/etc/st/config.xml" sample_shared)
              faults_rename sample_disk).2
    = [ConfigSaved (set_Location "/etc/st/config.xml" sample_shared)]
  ∧ files (Save (λ _, "<configuration/>")
             (set_Location "/etc/st/config.xml" sample_shared)
             faults_rename sample_disk).2 !! "/etc/st/config.xml"
    = Some "<configuration version=4/>".
Proof.
  apply (Save_publishes_after_rename (λ _, "<configuration/>")
           (set_Location "/etc/st/config.xml" sample_shared) faults_rename sample_disk).
  by repeat split.
Defined.

(** ** Construction and loading *)

Lemma applyDefaults_declared location :
  applyDefaults declared (set_Location location zeroConfiguration)
  = Returned (defaultConfiguration location).
Proof. reflexivity. Qed.

Lemma nonempty_tag (v : string) : v ≠ "" → (0 <? String.length v)%nat = true.
Proof. destruct v; [done|]. intros _. reflexivity. Qed.

(** [setDefaults] stops at the first integer field whose default does not
    parse: it returns the parse error, the fields before it hold their
    defaults, that field and the fields after it are as they were. *)
Theorem setDefaults_stops_at_unparseable_int
    (tags1 tags2 : list string) (v : string) (fields1 fields1' fields2 : list Value)
    (n : Z) (err : error) :
  length tags1 = length fields1 →
  setDefaults tags1 fields1 = Returned (fields1', None) →
  v ≠ "" → ParseInt v = inr err →
  setDefaults (tags1 ++ v :: tags2) (fields1 ++ VInt n :: fields2)
  = Returned (fields1' ++ VInt n :: fields2, Some err).
Proof.
  intros Hlen Hpre Hv Hparse.
  revert fields1 fields1' Hlen Hpre.
  induction tags1 as [|t tags1 IH]; intros [|f fields1] fields1' Hlen Hpre;
    try discriminate Hlen.
  - simpl in *. injection Hpre as <-.
    by rewrite (nonempty_tag v Hv), Hparse.
  - injection Hlen as Hlen. simpl in Hpre |- *.
    destruct (setDefaults tags1 fields1) as [[rest e]|msg] eqn:Hrec;
      destruct (0 <? String.length t)%nat eqn:Ht;
      [destruct f; [|destruct (ParseInt t) eqn:Hp| | |]| |destruct f; [|destruct (ParseInt t) eqn:Hp| | |]|];
      simplify_eq/=;
      by rewrite (IH fields1 rest Hlen Hrec).
Qed.

Section LoadProperties.

Variable os_Hostname : string.
Variable bcrypt_GenerateFromPassword : string → option string.
Variable os_Open : string → string + error.
Variable xml_Decode : string → Configuration → Configuration * option error.

(** [New] returns the declared defaults at the current version, with no
    folder, the listen address seeded with its default, and the local
    device as the only device, named after the host and with "dynamic" as
    its address. *)
Theorem New_is_default_with_local_device (location : string) (myID : DeviceID) :
  New os_Hostname bcrypt_GenerateFromPassword location myID
  = Returned
      (set_Devices
         [{| d_DeviceID := myID; Name := os_Hostname; Addresses := ["dynamic"];
             Compression := false; CertName := ""; Introducer := false |}]
         (set_Options (set_ListenAddress (Some ["0.0.0.0:22000"]) defaultOptions)
            (defaultConfiguration location))).
Proof. reflexivity. Qed.

Local Abbreviation prepare := (prepare os_Hostname bcrypt_GenerateFromPassword).
Local Abbreviation prepareFinish := (prepareFinish os_Hostname bcrypt_GenerateFromPassword).
Local Abbreviation New_with := (New_with os_Hostname bcrypt_GenerateFromPassword).
Local Abbreviation Load := (Load os_Hostname bcrypt_GenerateFromPassword os_Open xml_Decode).

(** In a build whose default for the version does not parse, [setDefaults]
    returns the parse error and [New] carries on without it: it returns a
    configuration, and that configuration is at version 0. *)
Theorem New_drops_the_parse_error (v : string) (err : error)
    (location : string) (myID : DeviceID) :
  v ≠ "" → ParseInt v = inr err →
  (∃ fields,
     setDefaults (Configuration_tags (withVersionDefault v))
       (Configuration_fields (set_Location location zeroConfiguration))
     = Returned (fields, Some err))
  ∧ ∃ cfg, New_with (withVersionDefault v) location myID = Returned cfg
           ∧ Version cfg = 0.
Proof.
  intros Hv Hparse.
  assert (setDefaults (Configuration_tags (withVersionDefault v))
            (Configuration_fields (set_Location location zeroConfiguration))
          = Returned (Configuration_fields (set_Location location zeroConfiguration),
                      Some err)) as Hsd.
  { simpl. by rewrite (nonempty_tag v Hv), Hparse. }
  split; [by eexists|].
  - unfold config.New_with, applyDefaults. rewrite Hsd.
    eexists. split; [reflexivity|].
    unfold config.prepare. rewrite Version_prepareFinish.
    rewrite migrate_no_step; rewrite Version_prepareStart; [reflexivity|].
    change (¬ (1 ≤ 0 ≤ 4)). lia.
Qed.

Lemma members_once_prepareFinish myID cfg :
  Forall (λ f, memberOccurrences myID (f_Devices f) = 1%nat)
    (Folders (prepareFinish myID cfg)).
Proof.
  rewrite Folders_prepareFinish.
  apply Forall_fmap, Forall_forall. intros f _.
  unfold compose. cbn [f_Devices set_f_Devices].
  assert (myID ∈ existingDevices myID (Devices cfg)) as Hme.
  { unfold existingDevices. apply elem_of_union_l. by apply elem_of_singleton. }
  destruct (prepareFolderDevices_spec myID _ (f_Devices f) Hme) as [Hnd Hids].
  apply occurs_once; [done|]. apply Hids. split; [by right|done].
Qed.


End LoadProperties.

Lemma setDefaults_stops_at_unparseable_int_witness :
  setDefaults (["true"; "127.0.0.1:8080"] ++ "80a" :: ["x"])
    ([VBool false; VString ""] ++ VInt 7 :: [VString "y"])
  = Returned ([VBool true; VString "127.0.0.1:8080"] ++ VInt 7 :: [VString "y"],
              Some (ErrSyntax "ParseInt" "80a")).
Proof.
  apply (setDefaults_stops_at_unparseable_int ["true"; "127.0.0.1:8080"] ["x"] "80a"
           [VBool false; VString ""] [VBool true; VString "127.0.0.1:8080"]
           [VString "y"] 7 (ErrSyntax "ParseInt" "80a"));
    first [reflexivity | discriminate].
Defined.

Lemma New_drops_the_parse_error_witness :
  (∃ fields,
     setDefaults (Configuration_tags (withVersionDefault "five"))
       (Configuration_fields (set_Location "/etc/st/config.xml" zeroConfiguration))
     = Returned (fields, Some (ErrSyntax "ParseInt" "five")))
  ∧ ∃ cfg, New_with "host" (λ _, None) (withVersionDefault "five")
             "/etc/st/config.xml" 7%N = Returned cfg
           ∧ Version cfg = 0.
Proof.
  apply (New_drops_the_parse_error "host" (λ _, None) "five"
           (ErrSyntax "ParseInt" "five") "/etc/st/config.xml" 7%N);
    first [reflexivity | discriminate].
Defined.



(** ** Order of the device lists *)

Lemma Compare_less a b : (Compare a b =? -1) = true ↔ (a < b)%N.
Proof.
  unfold Compare, N.lt. destruct (a ?= b)%N; simpl; split; (done || discriminate).
Qed.

Section SortedByKey.
Context {A : Type} (key : A → DeviceID).

Let less (a b : A) : bool := Compare (key a) (key b) =? -1.
Let le (a b : A) : Prop := (key a ≤ key b)%N.

Lemma insertLeft_sorted x l :
  StronglySorted le l → StronglySorted le (insertLeft less x l).
Proof.
  induction 1 as [|y l Hs IH Hall]; simpl; [repeat constructor|].
  destruct (less x y) eqn:Hless.
  - apply Compare_less in Hless.
    constructor; [by constructor|]. constructor; [unfold le; lia|].
    eapply Forall_impl; [exact Hall|]. unfold le. intros z Hz. simpl in *. lia.
  - constructor; [done|].
    rewrite insertLeft_Permutation. constructor; [|done].
    unfold le. destruct (N.lt_ge_cases (key x) (key y)) as [Hlt|Hge]; [|lia].
    apply Compare_less in Hlt. unfold less in Hless. congruence.
Qed.

Lemma sort_Sort_sorted l : StronglySorted le (sort_Sort less l).
Proof.
  unfold sort_Sort.
  assert (∀ acc, StronglySorted le acc →
                 StronglySorted le (fold_left (λ acc x, insertLeft less x acc) l acc)) as H.
  { induction l as [|x l IH]; intros acc Hacc; simpl; [done|].
    apply IH. by apply insertLeft_sorted. }
  apply H. constructor.
Qed.

Lemma sorted_NoDup_increasing l :
  StronglySorted le l → NoDup (key <$> l) →
  StronglySorted (λ a b, (key a < key b)%N) l.
Proof.
  induction 1 as [|x l Hs IH Hall]; intros Hnd; [constructor|].
  rewrite fmap_cons in Hnd. apply NoDup_cons in Hnd as [Hx Hnd].
  constructor; [by apply IH|].
  apply Forall_forall. intros y Hy.
  rewrite Forall_forall in Hall. specialize (Hall y Hy). unfold le in Hall.
  assert (key x ≠ key y); [|lia].
  intros Heq. apply Hx. rewrite Heq. by apply list_elem_of_fmap_2.
Qed.

End SortedByKey.

Section PrepareOrder.

Variable os_Hostname : string.
Variable bcrypt_GenerateFromPassword : string → option string.

Local Abbreviation prepare := (prepare os_Hostname bcrypt_GenerateFromPassword).
Local Abbreviation prepareFinish := (prepareFinish os_Hostname bcrypt_GenerateFromPassword).

(** After [prepare] the root device list is in ascending order of device
    identifier, and the membership list of every folder is in strictly
    ascending order. *)
Theorem prepare_orders_device_lists (myID : DeviceID) (cfg : Configuration) :
  StronglySorted (λ a b, (d_DeviceID a ≤ d_DeviceID b)%N) (Devices (prepare myID cfg))
  ∧ Forall (λ f, StronglySorted (λ a b, (fd_DeviceID a < fd_DeviceID b)%N) (f_Devices f))
      (Folders (prepare myID cfg)).
Proof.
  unfold config.prepare. generalize (migrate (prepareStart cfg)). intros mid. split.
  - rewrite Devices_prepareFinish.
    eapply StronglySorted_fmap; [|apply (sort_Sort_sorted d_DeviceID)].
    intros x y. by rewrite !d_DeviceID_dynamicAddresses.
  - rewrite Folders_prepareFinish.
    apply Forall_fmap, Forall_forall. intros f _.
    unfold compose. cbn [f_Devices set_f_Devices].
    assert (myID ∈ existingDevices myID (Devices mid)) as Hme.
    { unfold existingDevices. apply elem_of_union_l. by apply elem_of_singleton. }
    destruct (prepareFolderDevices_spec myID _ (f_Devices f) Hme) as [Hnd _].
    apply (sorted_NoDup_increasing fd_DeviceID); [|done].
    apply (sort_Sort_sorted fd_DeviceID).
Qed.


End PrepareOrder.


(** ** Folder identifiers *)

(** Reads an element of a slice after writes through indices. *)
Ltac unalter H :=
  repeat first
    [ rewrite list_lookup_alter_ne in H by done
    | rewrite list_lookup_alter_eq in H;
      let g := fresh "g" in
      let Hg := fresh "Hg" in
      apply fmap_Some in H as (g & Hg & ->); rename Hg into H ].

Lemma checkFolder_length st i :
  length (fc_Folders (checkFolder st i)) = length (fc_Folders st).
Proof.
  unfold checkFolder.
  destruct (fc_Folders st !! i); [|done].
  destruct (_ =? _)%nat; simpl; [by rewrite length_alter|].
  destruct (seenFolders st !! _); simpl.
  - destruct (bool_decide (folderID (alter _ _ _) _ = _)); simpl;
      rewrite !length_alter; destruct (bool_decide _); by rewrite ?length_alter.
  - destruct (bool_decide _); by rewrite ?length_alter.
Qed.

Lemma checkFolder_checked n st :
  checked n st → checked (S n) (checkFolder st n).
Proof.
  intros [Hseen Hvalid]. unfold checkFolder.
  destruct (fc_Folders st !! n) as [folder|] eqn:Hn.
  2:{ split; [intros id k Hk; apply Hseen in Hk; lia|].
      intros k f Hk Hf. apply Hvalid; [|done].
      destruct (decide (k = n)) as [->|]; [congruence|lia]. }
  destruct (String.length (Path folder) =? 0)%nat.
  { split; simpl; [intros id k Hk; apply Hseen in Hk; lia|].
    intros k f Hk Hf Hinv. destruct (decide (k = n)) as [->|Hne].
    - unalter Hf. discriminate Hinv.
    - unalter Hf. apply Hvalid; [lia|done|done]. }
  set (folders := if bool_decide (folderID (fc_Folders st) n = "")
                  then alter (set_ID "default") n (fc_Folders st) else fc_Folders st).
  assert (∀ k, k ≠ n → folders !! k = fc_Folders st !! k) as Hother.
  { intros k Hk. unfold folders. case_bool_decide; [|done].
    by rewrite list_lookup_alter_ne. }
  assert (∃ f, folders !! n = Some f ∧ ID f = folderID folders n) as (fn & Hfn & Hid).
  { unfold folderID. destruct (folders !! n) as [f|] eqn:Hf; [by exists f|].
    exfalso. unfold folders in Hf. case_bool_decide.
    - rewrite list_lookup_alter_eq, Hn in Hf. done.
    - congruence. }
  destruct (seenFolders st !! folderID folders n) as [seen|] eqn:Hs.
  - apply Hseen in Hs as Hlt.
    assert (seen ≠ n) as Hsn by lia. assert (n ≠ seen) as Hns by lia.
    destruct (bool_decide (folderID (alter _ seen folders) seen = _)); simpl;
      (split; [intros id k Hk; apply Hseen in Hk; lia|]);
      intros k f Hk Hf Hinv; cbn [fc_Folders] in Hf;
      (destruct (decide (k = n)) as [->|Hne];
       [ unalter Hf; discriminate Hinv
       | destruct (decide (k = seen)) as [->|Hne'];
         [ unalter Hf; discriminate Hinv
         | unalter Hf; rewrite Hother in Hf by done;
           apply Hvalid; [lia|done|done] ] ]).
  - split; simpl.
    + intros id k Hk. apply lookup_insert_Some in Hk as [[_ <-]|[_ Hk]]; [lia|].
      apply Hseen in Hk. lia.
    + intros k f Hk Hf Hinv. destruct (decide (k = n)) as [->|Hne].
      * rewrite Hfn in Hf. simplify_eq. rewrite Hid. by rewrite lookup_insert_eq.
      * rewrite Hother in Hf by done.
        assert (seenFolders st !! ID f = Some k) as Hk' by (apply Hvalid; [lia|done|done]).
        rewrite lookup_insert_ne; [done|]. intros Heq. congruence.
Qed.

Lemma checkFolders_fold_length idxs st :
  length (fc_Folders (fold_left checkFolder idxs st)) = length (fc_Folders st).
Proof.
  revert st. induction idxs as [|i idxs IH]; intros st; simpl; [done|].
  by rewrite IH, checkFolder_length.
Qed.

Lemma checkFolders_fold_checked a m st :
  checked a st → checked (a + m) (fold_left checkFolder (seq a m) st).
Proof.
  revert a st. induction m as [|m IH]; intros a st Hst; simpl.
  - by rewrite Nat.add_0_r.
  - rewrite <- Nat.add_succ_comm. apply IH. by apply checkFolder_checked.
Qed.

Lemma checkFolders_length folders : length (checkFolders folders) = length folders.
Proof. unfold checkFolders. by rewrite checkFolders_fold_length. Qed.

Lemma checkFolders_unique folders i j fi fj :
  checkFolders folders !! i = Some fi → checkFolders folders !! j = Some fj →
  Invalid fi = "" → Invalid fj = "" → ID fi = ID fj → i = j.
Proof.
  intros Hi Hj Hvi Hvj Hid.
  pose proof (lookup_lt_Some _ _ _ Hi) as Hli.
  pose proof (lookup_lt_Some _ _ _ Hj) as Hlj.
  rewrite checkFolders_length in Hli, Hlj.
  unfold checkFolders in Hi, Hj.
  destruct (checkFolders_fold_checked 0 (length folders)
              {| fc_Folders := folders; seenFolders := ∅; uniqueCounter := 0 |})
    as [_ Hvalid].
  { split; [by intros id k Hk|]. intros k f Hk. lia. }
  pose proof (Hvalid i fi Hli Hi Hvi) as H1.
  pose proof (Hvalid j fj Hlj Hj Hvj) as H2.
  rewrite Hid in H1. congruence.
Qed.

Section PrepareFolders.

Variable os_Hostname : string.
Variable bcrypt_GenerateFromPassword : string → option string.

Local Abbreviation prepare := (prepare os_Hostname bcrypt_GenerateFromPassword).

(** On a document that needs no migration step, no two folders that
    [prepare] leaves without an [Invalid] mark have the same identifier.
    The folders keep their number and order. *)
Theorem prepare_valid_folder_ids_differ (myID : DeviceID) (cfg : Configuration)
    (i j : nat) (fi fj : FolderConfiguration) :
  ¬ (1 ≤ Version cfg ≤ 4) →
  length (Folders (prepare myID cfg)) = length (Folders cfg)
  ∧ (Folders (prepare myID cfg) !! i = Some fi →
     Folders (prepare myID cfg) !! j = Some fj →
     Invalid fi = "" → Invalid fj = "" → ID fi = ID fj → i = j).
Proof.
  intros Hv. unfold config.prepare.
  rewrite migrate_no_step by by rewrite Version_prepareStart.
  rewrite Folders_prepareFinish, Folders_prepareStart.
  split; [by rewrite length_fmap, checkFolders_length|].
  rewrite !list_lookup_fmap. intros Hi Hj.
  apply fmap_Some in Hi as (gi & Hi & ->). apply fmap_Some in Hj as (gj & Hj & ->).
  cbn [Invalid ID set_f_Devices].
  exact (checkFolders_unique (Folders cfg) i j gi gj Hi Hj).
Qed.

End PrepareFolders.

Lemma prepare_valid_folder_ids_differ_witness :
  length (Folders (prepare "host" (λ _, None) 7%N sample_collision)) = 4%nat
  ∧ (Folders (prepare "host" (λ _, None) 7%N sample_collision) !! 1%nat
       = Some (set_f_Devices [member 7%N]
                 (set_ID "music" (set_Path "/data/m" zeroFolder))) →
     Folders (prepare "host" (λ _, None) 7%N sample_collision) !! 1%nat
       = Some (set_f_Devices [member 7%N]
                 (set_ID "music" (set_Path "/data/m" zeroFolder))) →
     "" = "" → "" = "" → "music" = "music" → 1%nat = 1%nat).
Proof.
  apply (prepare_valid_folder_ids_differ "host" (λ _, None) 7%N sample_collision 1 1
           (set_f_Devices [member 7%N] (set_ID "music" (set_Path "/data/m" zeroFolder)))
           (set_f_Devices [member 7%N] (set_ID "music" (set_Path "/data/m" zeroFolder)))).
  vm_compute. intros [_ H]. by apply H.
Defined.

Lemma empty_path (p : string) : (String.length p =? 0)%nat = true ↔ p = "".
Proof. destruct p; simpl; split; (done || discriminate). Qed.

(** One iteration changes identifiers and marks only. *)
Lemma checkFolder_unmarked st n k f :
  fc_Folders st !! k = Some f →
  ∃ f', fc_Folders (checkFolder st n) !! k = Some f' ∧ unmarked f' = unmarked f.
Proof.
  intros Hf. unfold checkFolder.
  destruct (fc_Folders st !! n) as [folder|]; [|by exists f].
  destruct (_ =? _)%nat; simpl.
  { rewrite list_lookup_alter. case_decide; subst; rewrite Hf; by eexists. }
  set (folders := if bool_decide _ then _ else _).
  assert (∃ g, folders !! k = Some g ∧ unmarked g = unmarked f) as (g & Hg & Hug).
  { unfold folders. case_bool_decide; [|by exists f].
    rewrite list_lookup_alter. case_decide; subst; rewrite Hf; by eexists. }
  clearbody folders.
  destruct (seenFolders st !! folderID folders n) as [seen|]; simpl; [|by exists g].
  case_bool_decide; simpl;
    rewrite !list_lookup_alter; repeat case_decide; subst; rewrite ?Hg; simpl;
    (eexists; split; [reflexivity|]); by rewrite <- Hug.
Qed.

(** One iteration writes to the folder at hand and to a recorded folder. *)
Lemma checkFolder_elsewhere st n k :
  k ≠ n → (∀ id, seenFolders st !! id ≠ Some k) →
  fc_Folders (checkFolder st n) !! k = fc_Folders st !! k.
Proof.
  intros Hk Hnot. assert (n ≠ k) as Hk' by done. unfold checkFolder.
  destruct (fc_Folders st !! n) as [folder|]; [|done].
  destruct (_ =? _)%nat; simpl; [by rewrite list_lookup_alter_ne|].
  set (folders := if bool_decide _ then _ else _).
  assert (folders !! k = fc_Folders st !! k) as Hg.
  { unfold folders. case_bool_decide; [|done]. by rewrite list_lookup_alter_ne. }
  clearbody folders.
  destruct (seenFolders st !! folderID folders n) as [seen|] eqn:Hs; simpl; [|done].
  assert (seen ≠ k) as Hsk by (intros ->; by eapply Hnot).
  case_bool_decide; simpl; by rewrite !list_lookup_alter_ne.
Qed.

Lemma checkFolder_no_path st n f :
  fc_Folders st !! n = Some f → Path f = "" →
  fc_Folders (checkFolder st n) !! n = Some (set_Invalid "no directory configured" f).
Proof.
  intros Hf Hp. unfold checkFolder. rewrite Hf.
  apply empty_path in Hp. rewrite Hp. simpl. by rewrite list_lookup_alter_eq, Hf.
Qed.

Lemma checkFolder_seen st n id s :
  seenFolders (checkFolder st n) !! id = Some s →
  seenFolders st !! id = Some s
  ∨ (s = n ∧ ∃ f, fc_Folders st !! n = Some f ∧ Path f ≠ "").
Proof.
  unfold checkFolder.
  destruct (fc_Folders st !! n) as [folder|]; [|by left].
  destruct (_ =? _)%nat eqn:Hp; simpl; [by left|].
  assert (Path folder ≠ "") as Hpath.
  { intros H. apply empty_path in H. congruence. }
  set (folders := if bool_decide _ then _ else _). clearbody folders.
  destruct (seenFolders st !! folderID folders n) as [seen|]; simpl.
  - case_bool_decide; by left.
  - intros [[_ <-]|[_ H]]%lookup_insert_Some; [right|by left]. eauto.
Qed.

Lemma checkFolder_kept orig n st :
  kept orig n st → kept orig (S n) (checkFolder st n).
Proof.
  intros (Hlen & Hshape & Hseen). split_and!.
  - by rewrite checkFolder_length.
  - intros k f0 Hk. destruct (Hshape k f0 Hk) as (f & Hf & Hu & Hge & Hlt).
    destruct (checkFolder_unmarked st n k f Hf) as (f' & Hf' & Hu').
    exists f'. split_and!; [done|by rewrite Hu'| |].
    + intros Hle. rewrite checkFolder_elsewhere in Hf'.
      * rewrite Hge in Hf by lia. congruence.
      * lia.
      * intros id Hid. apply Hseen in Hid as [? _]. lia.
    + intros Hkn Hp. destruct (decide (k = n)) as [->|Hne].
      * rewrite Hge in Hf by lia.
        rewrite (checkFolder_no_path st n f0 Hf Hp) in Hf'. congruence.
      * rewrite checkFolder_elsewhere in Hf'.
        -- rewrite Hlt in Hf by (done || lia). congruence.
        -- done.
        -- intros id Hid. apply Hseen in Hid as (_ & g0 & Hg0 & Hpg). congruence.
  - intros id s [Hs|(-> & f & Hf & Hp)]%checkFolder_seen.
    + destruct (Hseen id s Hs) as (? & ?). split; [lia|done].
    + split; [lia|].
      destruct (lookup_lt_is_Some_2 orig n) as [f0 Hf0].
      { rewrite <- Hlen. by eapply lookup_lt_Some. }
      destruct (Hshape n f0 Hf0) as (g & Hg & _ & Hge & _).
      rewrite Hge in Hg by lia. exists f0. split; [done|]. congruence.
Qed.

Lemma checkFolders_fold_kept orig a m st :
  kept orig a st → kept orig (a + m) (fold_left checkFolder (seq a m) st).
Proof.
  revert a st. induction m as [|m IH]; intros a st Hst; simpl.
  - by rewrite Nat.add_0_r.
  - rewrite <- Nat.add_succ_comm. apply IH. by apply checkFolder_kept.
Qed.

(** The folder check keeps every folder in its place and changes nothing
    but [ID] and [Invalid]; a folder without path gets the mark "no
    directory configured" and keeps its identifier, whatever it is. *)
Theorem checkFolders_touches_identifier_and_mark
    (folders : list FolderConfiguration) (k : nat) (f0 : FolderConfiguration) :
  folders !! k = Some f0 →
  length (checkFolders folders) = length folders
  ∧ ∃ f, checkFolders folders !! k = Some f
         ∧ set_Invalid "" (set_ID "" f) = set_Invalid "" (set_ID "" f0)
         ∧ (Path f0 = "" → f = set_Invalid "no directory configured" f0).
Proof.
  intros Hk. split; [apply checkFolders_length|].
  destruct (checkFolders_fold_kept folders 0 (length folders)
              {| fc_Folders := folders; seenFolders := ∅; uniqueCounter := 0 |})
    as (_ & Hshape & _).
  { split_and!; [done| |done]. intros j g Hj. exists g.
    split_and!; [done|done|done|lia]. }
  destruct (Hshape k f0 Hk) as (f & Hf & Hu & _ & Hlt).
  exists f. split_and!; [done|done|].
  apply Hlt. by eapply lookup_lt_Some.
Qed.

Lemma checkFolders_touches_identifier_and_mark_witness :
  length (checkFolders (Folders sample_collision)) = 4%nat
  ∧ ∃ f, checkFolders (Folders sample_collision) !! 3%nat = Some f
         ∧ set_Invalid "" (set_ID "" f) = set_Invalid "" (set_ID "" (set_ID "music" zeroFolder))
         ∧ (Path (set_ID "music" zeroFolder) = "" →
            f = set_Invalid "no directory configured" (set_ID "music" zeroFolder)).
Proof.
  apply (checkFolders_touches_identifier_and_mark (Folders sample_collision) 3
           (set_ID "music" zeroFolder)).
  reflexivity.
Defined.

(** ** The versioning element *)

Lemma fold_insert_list_to_map (l : list InternalParam) (m : gmap string string) :
  fold_left (λ m p, <[Key p := Val p]> m) l m
  = list_to_map ((λ p, (Key p, Val p)) <$> reverse l) ∪ m.
Proof.
  revert m. induction l as [|p l IH]; intros m; simpl.
  - by rewrite (left_id_L ∅ (∪)).
  - rewrite IH, reverse_cons, fmap_app, list_to_map_app. simpl.
    rewrite <- (assoc_L (∪)). f_equal.
    by rewrite insert_empty, <- insert_union_singleton_l.
Qed.

(** Decoding what was encoded gives the configuration back, in whatever
    order the parameters were written, and whatever the receiving value
    held before. *)
Theorem versioning_survives_marshalling
    (c old : VersioningConfiguration) (params : list InternalParam) :
  params ≡ₚ i_Params (marshalled c) →
  UnmarshalXML (inl {| i_Type := Type_ c; i_Params := params |}) old = (c, None).
Proof.
  intros Hperm. unfold UnmarshalXML. cbn [i_Type i_Params]. f_equal.
  destruct c as [ty ps]. cbn [Type_ Params marshalled i_Params] in *. f_equal.
  rewrite fold_insert_list_to_map, (right_id_L ∅ (∪)).
  etrans; [|apply (list_to_map_to_list ps)].
  apply list_to_map_proper.
  - rewrite <- list_fmap_compose, reverse_Permutation, Hperm, <- list_fmap_compose.
    rewrite (list_fmap_ext _ fst (map_to_list ps)) by (by intros i [k v] _).
    apply NoDup_fst_map_to_list.
  - rewrite reverse_Permutation, Hperm, <- list_fmap_compose.
    rewrite (list_fmap_ext _ id (map_to_list ps)) by (by intros i [k v] _).
    by rewrite list_fmap_id.
Qed.

(** When the element names a key more than once, the last value wins; a
    decoding error leaves the receiving value as it was. *)
Theorem UnmarshalXML_last_value_wins
    (ty : string) (before after : list InternalParam) (p : InternalParam)
    (old : VersioningConfiguration) :
  Forall (λ q, Key q ≠ Key p) after →
  Params (UnmarshalXML (inl {| i_Type := ty; i_Params := before ++ p :: after |}) old).1
    !! Key p = Some (Val p)
  ∧ ∀ err, UnmarshalXML (inr err) old = (old, Some err).
Proof.
  intros Hafter. split; [|done].
  unfold UnmarshalXML. cbn [fst Params i_Params].
  rewrite fold_left_app. simpl.
  generalize (fold_left (λ (m : gmap string string) q, <[Key q := Val q]> m) before ∅).
  intros m.
  assert (∀ m : gmap string string, m !! Key p = Some (Val p) →
               fold_left (λ m q, <[Key q := Val q]> m) after m !! Key p = Some (Val p)) as H.
  { induction Hafter as [|q after Hq _ IH]; intros m' Hm; simpl; [done|].
    apply IH. by rewrite lookup_insert_ne. }
  apply H. by rewrite lookup_insert_eq.
Qed.

(** ** Cached device identifiers *)

Lemma DeviceIDs_fold (devices : list FolderDeviceConfiguration) (r : FolderConfiguration) :
  fold_left (λ r n, set_deviceIDs (deviceIDs r ++ [fd_DeviceID n]) r) devices r
  = set_deviceIDs (deviceIDs r ++ (fd_DeviceID <$> devices)) r.
Proof.
  revert r. induction devices as [|n devices IH]; intros r; simpl.
  - rewrite app_nil_r. by destruct r.
  - rewrite IH. unfold set_deviceIDs. simpl. by rewrite <- app_assoc.
Qed.

(** The first call of [DeviceIDs] on a folder returns the identifiers of
    its membership list in order.  From then on the folder answers from its
    cache: if the first answer was not empty, a later call returns it again
    whatever the membership list has become. *)
Theorem DeviceIDs_answers_from_cache (r : FolderConfiguration)
    (later : list FolderDeviceConfiguration) :
  deviceIDs r = [] →
  (DeviceIDs r).1 = fd_DeviceID <$> f_Devices r
  ∧ (f_Devices r ≠ [] →
     (DeviceIDs (set_f_Devices later (DeviceIDs r).2)).1 = fd_DeviceID <$> f_Devices r).
Proof.
  intros Hnil. unfold DeviceIDs at 1 3. rewrite Hnil, DeviceIDs_fold, Hnil. simpl.
  split; [done|]. intros Hne. unfold DeviceIDs. simpl.
  destruct (f_Devices r) as [|d ds]; [done|]. done.
Qed.

(** ** Listen addresses *)

Lemma uniqueStrings_spec (ss : list string) :
  NoDup (uniqueStrings ss) ∧ ∀ s, s ∈ uniqueStrings ss ↔ s ∈ ss.
Proof.
  unfold uniqueStrings. split; [apply NoDup_elements|].
  intros s. by rewrite elem_of_elements, elem_of_list_to_set.
Qed.

Lemma ListenAddress_convertV1V2 cfg :
  ListenAddress (Options (convertV1V2 cfg)) = ListenAddress (Options cfg).
Proof.
  unfold convertV1V2. destruct (fold_left _ _ _) as [repos devices].
  cbv zeta. cbn [Options set_Version set_Options set_GUI set_Deprecated_Nodes
                 set_Deprecated_Repositories].
  by destruct (Options cfg).
Qed.

Lemma ListenAddress_convertV2V3 cfg :
  ListenAddress (Options (convertV2V3 cfg)) = ListenAddress (Options cfg).
Proof.
  unfold convertV2V3. cbv zeta. cbn [Options set_Deprecated_Nodes].
  case_bool_decide; [|done]. cbn [Options set_Version set_Options].
  by destruct (Options cfg).
Qed.

Lemma ListenAddress_convertV3V4 cfg :
  ListenAddress (Options (convertV3V4 cfg)) = ListenAddress (Options cfg).
Proof.
  unfold convertV3V4. cbv zeta.
  cbn [Options set_Version set_Options set_Deprecated_Repositories].
  by destruct (Options cfg).
Qed.

(** [migrate] as the composition of its four guarded steps. *)
Lemma migrate_steps cfg :
  migrate cfg
  = (λ c, if Version c =? 4 then convertV4V5 c else c)
      ((λ c, if Version c =? 3 then convertV3V4 c else c)
         ((λ c, if Version c =? 2 then convertV2V3 c else c)
            ((λ c, if Version c =? 1 then convertV1V2 c else c) cfg))).
Proof. reflexivity. Qed.

Lemma ListenAddress_step (v : Z) (step : Configuration → Configuration) cfg :
  (∀ c, ListenAddress (Options (step c)) = ListenAddress (Options c)) →
  ListenAddress (Options ((λ c, if Version c =? v then step c else c) cfg))
  = ListenAddress (Options cfg).
Proof. intros Hstep. cbv beta. by destruct (Version cfg =? v). Qed.

Lemma ListenAddress_migrate cfg :
  ListenAddress (Options (migrate cfg)) = ListenAddress (Options cfg).
Proof.
  rewrite migrate_steps.
  rewrite (ListenAddress_step 4 convertV4V5) by done.
  rewrite (ListenAddress_step 3 convertV3V4) by apply ListenAddress_convertV3V4.
  rewrite (ListenAddress_step 2 convertV2V3) by apply ListenAddress_convertV2V3.
  by rewrite (ListenAddress_step 1 convertV1V2) by apply ListenAddress_convertV1V2.
Qed.

Lemma ListenAddress_prepareStart cfg :
  ListenAddress (Options (prepareStart cfg))
  = Some (uniqueStrings (default ["0.0.0.0:22000"] (ListenAddress (Options cfg)))).
Proof.
  unfold prepareStart. cbv zeta.
  destruct (Options cfg) as [[la|] ????????????????? [] ???]; reflexivity.
Qed.

Section PrepareListen.

Variable os_Hostname : string.
Variable bcrypt_GenerateFromPassword : string → option string.

Local Abbreviation prepare := (prepare os_Hostname bcrypt_GenerateFromPassword).

Lemma Options_prepareFinish myID cfg :
  Options (prepareFinish os_Hostname bcrypt_GenerateFromPassword myID cfg) = Options cfg.
Proof.
  unfold prepareFinish. cbv zeta.
  destruct (GetDeviceConfiguration _ _); cbn [Options set_Devices set_Folders];
    unfold hashPassword; by repeat case_match.
Qed.

(** After [prepare] the listen addresses are present and free of
    duplicates.  They are the addresses the document came with, or the
    default "0.0.0.0:22000" when the document had no such element; a list
    that is present and empty stays empty. *)
Theorem prepare_makes_listen_addresses_unique (myID : DeviceID) (cfg : Configuration) :
  ∃ l, ListenAddress (Options (prepare myID cfg)) = Some l
       ∧ NoDup l
       ∧ ∀ a, a ∈ l ↔ a ∈ default ["0.0.0.0:22000"] (ListenAddress (Options cfg)).
Proof.
  unfold config.prepare.
  rewrite Options_prepareFinish, ListenAddress_migrate, ListenAddress_prepareStart.
  eexists. split; [done|]. apply uniqueStrings_spec.
Qed.

End PrepareListen.

Lemma versioning_survives_marshalling_witness :
  UnmarshalXML
    (inl {| i_Type := "staggered";
            i_Params := [{| Key := "maxAge"; Val := "365" |};
                         {| Key := "cleanInterval"; Val := "3600" |}] |})
    {| Type_ := "simple"; Params := {[ "keep" := "5" ]} |}
  = (sample_versioning, None).
Proof.
  apply (versioning_survives_marshalling sample_versioning
           {| Type_ := "simple"; Params := {[ "keep" := "5" ]} |}
           [{| Key := "maxAge"; Val := "365" |};
            {| Key := "cleanInterval"; Val := "3600" |}]).
  vm_compute. first [reflexivity | apply Permutation_swap].
Defined.

Lemma UnmarshalXML_last_value_wins_witness :
  Params (UnmarshalXML
            (inl {| i_Type := "simple";
                    i_Params := [{| Key := "keep"; Val := "5" |}]
                                ++ {| Key := "keep"; Val := "10" |}
                                   :: [{| Key := "other"; Val := "x" |}] |})
            sample_versioning).1 !! "keep" = Some "10".
Proof.
  apply (UnmarshalXML_last_value_wins "simple" [{| Key := "keep"; Val := "5" |}]
           [{| Key := "other"; Val := "x" |}] {| Key := "keep"; Val := "10" |}
           sample_versioning).
  repeat constructor. discriminate.
Defined.

Lemma DeviceIDs_answers_from_cache_witness :
  (DeviceIDs (set_f_Devices [member 3%N; member 7%N] zeroFolder)).1 = [3%N; 7%N].
Proof.
  exact (proj1 (DeviceIDs_answers_from_cache
                  (set_f_Devices [member 3%N; member 7%N] zeroFolder) [] eq_refl)).
Defined.

End config.
